(** * Helper layer of the metabolomics imputation study (src/utils/helpers.py)

    A shallow embedding of the helper routines and the properties the
    specification states about them.

    Conventions of the embedding:
    - a Python [dict] is an insertion-ordered association list ([dict]);
      [d[k]] is [getitem] (raises [KeyError]), [d.get(k, v)] is [get];
    - the configuration is the nested mapping read from YAML, viewed at the
      types the helpers use it at; an absent key is [None];
    - a raised exception is the [Raise] branch of [result]; code that touches
      the file system, the log, the clock or the seeds runs in the state
      monad [M] over [World], and keeps the state reached when the
      exception was raised;
    - a Python [int] is a [Z]; a binary64 metric value is a primitive
      float; the statistics of [calculate_missing_percentage] are exact
      rationals with NaN apart;
    - a missing cell (NaN / None) of a data frame is [None];
    - what the libraries do ([pathlib], [pandas], [numpy], [logging]) is
      modelled as far as the helpers depend on it; [numpy.argsort] and
      [yaml.safe_load] are parameters. *)

From Stdlib Require Import ZArith QArith Qabs Qpower String Ascii List Floats.
From Stdlib Require Import Permutation Sorted Lia Lqa DecimalString.
From Stdlib Require DecimalZ DecimalNat.
From stdpp Require Import gmap strings list sorting.

Close Scope Q_scope.
Local Open Scope string_scope.
Local Open Scope list_scope.

Set Warnings "-inexact-float".

(** ** Exceptions and results *)

Definition path := list string.

Inductive exn : Type :=
| KeyError (key : string)
| FileNotFoundError (p : path)
| FileExistsError (p : path)
| NotADirectoryError (p : path)
| IsADirectoryError (p : path)
| PermissionError (p : path)
| ValueError (msg : string)
| YAMLError (msg : string).

Inductive result (A : Type) : Type :=
| Ok (a : A)
| Raise (e : exn).
Arguments Ok {A} a.
Arguments Raise {A} e.

Definition rbind {A B} (r : result A) (k : A -> result B) : result B :=
  match r with
  | Ok a => k a
  | Raise e => Raise e
  end.

Declare Scope result_scope.
Delimit Scope result_scope with result.
Notation "'let?' x := r 'in' k" := (rbind r (fun x => k))
  (at level 10, x name, r at level 100, k at level 200) : result_scope.
Local Open Scope result_scope.

Definition is_ok {A} (r : result A) : bool :=
  match r with Ok _ => true | Raise _ => false end.

(** ** Dictionaries *)

Definition dict (V : Type) := list (string * V).

Fixpoint lookup_key {V} (d : dict V) (k : string) : option V :=
  match d with
  | [] => None
  | (k', v) :: d' => if String.eqb k' k then Some v else lookup_key d' k
  end.

(** [d[k]] *)
Definition getitem {V} (d : dict V) (k : string) : result V :=
  match lookup_key d k with
  | Some v => Ok v
  | None => Raise (KeyError k)
  end.

(** [d.get(k, dflt)] *)
Definition get {V} (d : dict V) (k : string) (dflt : V) : V :=
  match lookup_key d k with
  | Some v => v
  | None => dflt
  end.

Definition items {V} (d : dict V) : list (string * V) := d.
Definition values {V} (d : dict V) : list V := map snd d.

(** [d[k]] for a key of the configuration held in a record field. *)
Definition field {A} (k : string) (o : option A) : result A :=
  match o with
  | Some a => Ok a
  | None => Raise (KeyError k)
  end.

(** ** Configuration *)

Record DatasetSection := {
  ds_name : option string;
  ds_total_files : option Z;
  ds_samples : option (dict Z)
}.

Record VisualizationSection := {
  viz_colors : option (dict string)
}.

Record ProjectSection := {
  proj_name : option string
}.

Record Config := {
  cfg_paths : option (dict string);
  cfg_dataset : option DatasetSection;
  cfg_visualization : option VisualizationSection;
  cfg_project : option ProjectSection
}.

(** ** Text helpers *)

(** [str(n)] for an [int] *)
Definition str_Z (z : Z) : string := NilEmpty.string_of_int (Z.to_int z).
Definition str_nat (n : nat) : string := NilEmpty.string_of_uint (Nat.to_uint n).

(** [sep.join(parts)] *)
Fixpoint join (sep : string) (parts : list string) : string :=
  match parts with
  | [] => ""
  | [s] => s
  | s :: rest => s +:+ sep +:+ join sep rest
  end.

(** [s.startswith(p)] *)
Fixpoint startswith (s p : string) {struct p} : bool :=
  match p with
  | EmptyString => true
  | String a p' =>
      match s with
      | EmptyString => false
      | String b s' => Ascii.eqb a b && startswith s' p'
      end
  end.

Fixpoint rev_onto (s acc : string) : string :=
  match s with
  | EmptyString => acc
  | String c s' => rev_onto s' (String c acc)
  end.

Definition string_rev (s : string) : string := rev_onto s "".

(** [s.endswith(suffix)]: the reversed suffix starts the reversed text. *)
Definition endswith (s suffix : string) : bool :=
  startswith (string_rev s) (string_rev suffix).

(** [s.upper()] on ASCII text: only [a]..[z] change. *)
Definition upper_ascii (c : ascii) : ascii :=
  let n := nat_of_ascii c in
  if ((97 <=? n) && (n <=? 122))%nat then ascii_of_nat (n - 32) else c.

Fixpoint upper (s : string) : string :=
  match s with
  | EmptyString => EmptyString
  | String c s' => String (upper_ascii c) (upper s')
  end.

(** [ch * n] *)
Fixpoint repeat_char (c : ascii) (n : nat) : string :=
  match n with
  | O => ""
  | S n' => String c (repeat_char c n')
  end.

(** ** Tabular data, arrays and what a file holds *)

(** A cell holds a measured value or is missing (NaN / None). *)
Definition cell := option Q.

(** A data frame, row by row: [len(data)] is the number of rows, and
    [data.columns] the column labels.  A position past the end of a row
    reads as missing. *)
Record DataFrame := {
  columns : list string;
  rows : list (list cell)
}.

Record ndarray := {
  nd_shape : list nat;
  nd_data : list float
}.

(** What [save_results] may be handed: the annotation admits the first
    two, the interpreter anything. *)
Inductive artifact : Type :=
| Frame (df : DataFrame)
| Array (a : ndarray)
| OtherObject.

(** The snapshot [export_session_info] writes. *)
Record SessionInfo := {
  si_timestamp : string;
  si_python_version : string;
  si_platform : string;
  si_config : Config
}.

Inductive content : Type :=
| CsvText (df : DataFrame)          (* DataFrame.to_csv(index=True) *)
| ExcelWorkbook (df : DataFrame)    (* DataFrame.to_excel(index=True) *)
| PickleSnapshot (df : DataFrame)   (* DataFrame.to_pickle *)
| NpyArray (a : ndarray)            (* numpy.save *)
| SessionYaml (info : SessionInfo)  (* yaml.dump(session_info) *)
| LogFile (records : list string)   (* a file opened by a FileHandler *)
| Text (s : string).                (* any other text, e.g. config.yaml *)

(** ** Paths *)

Fixpoint split_on (sep : ascii) (s : string) : list string :=
  match s with
  | EmptyString => [""]
  | String c s' =>
      match split_on sep s' with
      | [] => [String c ""]
      | cur :: rest =>
          if Ascii.eqb c sep then "" :: cur :: rest
          else String c cur :: rest
      end
  end.

(** [Path(s).parts]: empty and ["."] components are dropped, an absolute
    path starts with the part ["/"].  A [".."] part is kept as it is, and
    a path that starts with two slashes is read as starting with one. *)
Definition Path (s : string) : path :=
  let parts :=
    List.filter (fun c => negb (String.eqb c "") && negb (String.eqb c "."))
                (split_on "/" s) in
  if startswith s "/" then "/" :: parts else parts.

Definition is_root (p : path) : bool :=
  match p with
  | [] => true
  | [r] => String.eqb r "/"
  | _ => false
  end.

Definition is_absolute (p : path) : bool :=
  match p with
  | r :: _ => String.eqb r "/"
  | [] => false
  end.

(** [p.parent] *)
Definition parent (p : path) : path :=
  if is_root p then p else removelast p.

(** [p / s] *)
Definition joinpath (p : path) (s : string) : path :=
  let q := Path s in
  if is_absolute q then q else p ++ q.

(** [str(p)] *)
Definition str_path (p : path) : string :=
  match p with
  | [] => "."
  | r :: rest =>
      if String.eqb r "/" then "/" +:+ join "/" rest else join "/" p
  end.

(** Proper ancestors of [p], nearest last. *)
Fixpoint ancestors (p : path) : list path :=
  match p with
  | [] => []
  | x :: p' => [] :: map (cons x) (ancestors p')
  end.

(** ** The file system, the log and the state monad *)

(** Directories, regular files and the directories in which nothing may be
    created.  The working directory [[]] and the root [["/"]] always exist. *)
Record FS := {
  dirs : gset path;
  files : gmap path content;
  readonly : gset path
}.

(** [datetime.now()] reads the clock. *)
Record datetime := {
  year : nat; month : nat; day : nat;
  hour : nat; minute : nat; second : nat; microsecond : nat
}.

(** What the interpreter reports about itself: [sys.version] and
    [platform.platform()]. *)
Record Host := {
  sys_version : string;
  platform_name : string
}.

(** The world the helpers act on: the file system, the records handed to
    the [logging] module, the clock, the host, the file handlers of the
    root logger ([None] while it is not configured) and the seeds of
    [numpy.random] and [random]. *)
Record World := {
  fs : FS;
  log : list string;
  clock : datetime;
  host : Host;
  root_handlers : option (list path);
  np_seed : option Z;
  py_seed : option Z
}.

Definition set_fs (w : World) (f : FS) : World :=
  {| fs := f; log := log w; clock := clock w; host := host w;
     root_handlers := root_handlers w;
     np_seed := np_seed w; py_seed := py_seed w |}.

Definition is_dir (f : FS) (p : path) : bool :=
  is_root p || bool_decide (p ∈ dirs f).

Definition is_file (f : FS) (p : path) : bool :=
  bool_decide (is_Some (files f !! p)).

(** [os.mkdir(p)] *)
Definition os_mkdir (p : path) (f : FS) : result FS :=
  if is_dir f p || is_file f p then Raise (FileExistsError p)
  else if existsb (is_file f) (ancestors p) then Raise (NotADirectoryError p)
  else if negb (is_dir f (parent p)) then Raise (FileNotFoundError p)
  else if bool_decide (parent p ∈ readonly f) then Raise (PermissionError p)
  else Ok {| dirs := {[p]} ∪ dirs f; files := files f; readonly := readonly f |}.

(** [open(p, 'w')] followed by writing [c] *)
Definition os_write (p : path) (c : content) (f : FS) : result FS :=
  if is_dir f p then Raise (IsADirectoryError p)
  else if existsb (is_file f) (ancestors p) then Raise (NotADirectoryError p)
  else if negb (is_dir f (parent p)) then Raise (FileNotFoundError p)
  else if negb (is_file f p) && bool_decide (parent p ∈ readonly f)
       then Raise (PermissionError p)
  else Ok {| dirs := dirs f; files := <[p := c]> (files f);
             readonly := readonly f |}.

Definition M (A : Type) : Type := World -> result A * World.

Definition ret {A} (a : A) : M A := fun w => (Ok a, w).
Definition raise {A} (e : exn) : M A := fun w => (Raise e, w).
Definition lift {A} (r : result A) : M A := fun w => (r, w).

Definition bind {A B} (m : M A) (k : A -> M B) : M B := fun w =>
  match m w with
  | (Ok a, w') => k a w'
  | (Raise e, w') => (Raise e, w')
  end.

Declare Scope M_scope.
Delimit Scope M_scope with M.
Notation "'let!' x := m 'in' k" := (bind m (fun x => k))
  (at level 10, x name, m at level 100, k at level 200) : M_scope.
Local Open Scope M_scope.

(** A system call: the file system changes only when it succeeds. *)
Definition syscall (op : FS -> result FS) : M unit := fun w =>
  match op (fs w) with
  | Ok f' => (Ok tt, set_fs w f')
  | Raise e => (Raise e, w)
  end.

(** [logger.info(msg)]: the record is handed to the logger. *)
Definition logger_info (msg : string) : M unit := fun w =>
  (Ok tt, {| fs := fs w; log := log w ++ [msg]; clock := clock w;
             host := host w; root_handlers := root_handlers w;
             np_seed := np_seed w; py_seed := py_seed w |}).

(** [logging.info(msg)]: the module-level function first gives the root
    logger a console handler when it has no handler at all. *)
Definition logging_info (msg : string) : M unit := fun w =>
  (Ok tt, {| fs := fs w; log := log w ++ [msg]; clock := clock w;
             host := host w;
             root_handlers := match root_handlers w with
                              | Some hs => Some hs
                              | None => Some []
                              end;
             np_seed := np_seed w; py_seed := py_seed w |}).

(** [datetime.now()] *)
Definition datetime_now : M datetime := fun w => (Ok (clock w), w).

(** [for x in xs: body(x)] *)
Fixpoint for_each {A} (xs : list A) (body : A -> M unit) : M unit :=
  match xs with
  | [] => ret tt
  | x :: xs' => let! _ := body x in for_each xs' body
  end.

(** [p.mkdir(parents=False, exist_ok=True)] *)
Definition mkdir_exist_ok (p : path) : M unit := fun w =>
  match os_mkdir p (fs w) with
  | Ok f' => (Ok tt, set_fs w f')
  | Raise (FileNotFoundError q) => (Raise (FileNotFoundError q), w)
  | Raise e => if is_dir (fs w) p then (Ok tt, w) else (Raise e, w)
  end.

(** [p.mkdir(parents=True, exist_ok=True)], as pathlib does it: try the
    directory itself, on a missing parent create the parent the same way
    and try again; [n] bounds the recursion by the number of parts. *)
Fixpoint mkdir_parents (n : nat) (p : path) : M unit := fun w =>
  match os_mkdir p (fs w) with
  | Ok f' => (Ok tt, set_fs w f')
  | Raise (FileNotFoundError q) =>
      match n with
      | S n' =>
          if bool_decide (parent p = p) then (Raise (FileNotFoundError q), w)
          else (let! _ := mkdir_parents n' (parent p) in mkdir_exist_ok p) w
      | O => (Raise (FileNotFoundError q), w)
      end
  | Raise e => if is_dir (fs w) p then (Ok tt, w) else (Raise e, w)
  end.

Definition Path_mkdir (p : path) : M unit := mkdir_parents (length p) p.

(** ** create_directories *)

(** The body of the loop: [Path(path_value).mkdir(parents=True,
    exist_ok=True)]. *)
Definition make_directory (entry : string * string) : M unit :=
  let '(path_name, path_value) := entry in
  Path_mkdir (Path path_value).

Definition create_directories (config : Config) : M unit :=
  let! paths := lift (field "paths" (cfg_paths config)) in
  for_each (items paths) make_directory.

(** ** save_results *)

(** [numpy.save] appends [.npy] to a file name that lacks it. *)
Definition npy_target (p : path) : path :=
  let s := str_path p in
  Path (if endswith s ".npy" then s else s +:+ ".npy").

Definition to_csv (df : DataFrame) (p : path) : M unit :=
  syscall (os_write p (CsvText df)).
Definition to_excel (df : DataFrame) (p : path) : M unit :=
  syscall (os_write p (ExcelWorkbook df)).
Definition to_pickle (df : DataFrame) (p : path) : M unit :=
  syscall (os_write p (PickleSnapshot df)).
Definition np_save (p : path) (a : ndarray) : M unit :=
  syscall (os_write (npy_target p) (NpyArray a)).

Definition save_results (data : artifact) (filename : string)
    (config : Config) (subdirectory : string) : M unit :=
  let! paths := lift (field "paths" (cfg_paths config)) in
  let! dir := lift (getitem paths subdirectory) in
  let output_dir := Path dir in
  let! _ := Path_mkdir output_dir in
  let output_path := joinpath output_dir filename in
  let! _ :=
    match data with
    | Frame df =>
        if endswith filename ".csv" then to_csv df output_path
        else if endswith filename ".xlsx" then to_excel df output_path
        else to_pickle df output_path
    | Array a => np_save output_path a
    | OtherObject => ret tt
    end in
  logging_info ("Results saved to " +:+ str_path output_path).

(** ** get_sample_info *)

Record SampleRow := {
  sample_id : string;
  group : string;
  color : string
}.

(** [range(count)] *)
Definition range (count : Z) : list Z :=
  map Z.of_nat (seq 0 (Z.to_nat count)).

(** A loop that appends to a list and may raise. *)
Fixpoint for_acc {A S} (xs : list A) (body : S -> A -> result S) (s : S)
    : result S :=
  match xs with
  | [] => Ok s
  | x :: xs' => let? s' := body s x in for_acc xs' body s'
  end.

(** The dictionary appended for sample [i] of [group]; the colour lookup
    is evaluated here, once per appended row. *)
Definition sample_row (config : Config) (group : string) (i : Z)
    : result SampleRow :=
  let id := group +:+ "_" +:+ str_Z (i + 1) in
  let? viz := field "visualization" (cfg_visualization config) in
  let? colors := field "colors" (viz_colors viz) in
  Ok {| sample_id := id; group := group;
        color := get colors group "#999999" |}.

(** The body of the inner loop: [sample_info.append({...})]. *)
Definition append_row (config : Config) (group : string)
    (sample_info : list SampleRow) (i : Z) : result (list SampleRow) :=
  let? row := sample_row config group i in
  Ok (sample_info ++ [row]).

(** The body of the outer loop: [for i in range(count): ...]. *)
Definition append_group (config : Config) (sample_info : list SampleRow)
    (gc : string * Z) : result (list SampleRow) :=
  let '(group, count) := gc in
  for_acc (range count) (append_row config group) sample_info.

Definition get_sample_info (config : Config) : result (list SampleRow) :=
  let? ds := field "dataset" (cfg_dataset config) in
  let? samples := field "samples" (ds_samples ds) in
  let sample_info := [] in
  for_acc (items samples) (append_group config) sample_info.

(** ** Null masks of a data frame *)

Definition len (data : DataFrame) : nat := length (rows data).

Definition isnull (c : cell) : bool :=
  match c with
  | None => true
  | Some _ => false
  end.

Definition cell_at (r : list cell) (j : nat) : cell := nth j r None.

(** The cells of column [j], top to bottom. *)
Definition column (data : DataFrame) (j : nat) : list cell :=
  map (fun r => cell_at r j) (rows data).

Definition column_ids (data : DataFrame) : list nat :=
  seq 0 (length (columns data)).

(** [data.isnull().sum()]: per column, the number of missing cells. *)
Definition isnull_sum (data : DataFrame) : list nat :=
  map (fun j => length (List.filter isnull (column data j))) (column_ids data).

(** [data.isnull().all()]: per column, whether every cell is missing. *)
Definition isnull_all (data : DataFrame) : list bool :=
  map (fun j => forallb isnull (column data j)) (column_ids data).

(** [data.isnull().all(axis=1)]: per row, whether every cell is missing. *)
Definition isnull_all_axis1 (data : DataFrame) : list bool :=
  map (fun r => forallb (fun j => isnull (cell_at r j)) (column_ids data))
      (rows data).

(** [labels[mask]]: the labels at which the mask is true. *)
Definition select {A} (labels : list A) (mask : list bool) : list A :=
  map fst (List.filter snd (combine labels mask)).

(** ** validate_data *)

(** [sum(xs)] *)
Definition sum (xs : list Z) : Z := fold_left Z.add xs 0%Z.

Definition row_count_message (expected : Z) (got : nat) : string :=
  "Expected " +:+ str_Z expected +:+ " samples, got " +:+ str_nat got.
Definition empty_features_message (n : nat) : string :=
  "Found " +:+ str_nat n +:+ " completely empty features".
Definition empty_samples_message (n : nat) : string :=
  "Found " +:+ str_nat n +:+ " completely empty samples".

Definition validate_data (data : DataFrame) (config : Config)
    : M (bool * list string) :=
  let errors := [] in
  let! ds := lift (field "dataset" (cfg_dataset config)) in
  let! samples := lift (field "samples" (ds_samples ds)) in
  let expected_samples := sum (values samples) in
  let errors :=
    if negb (Z.of_nat (len data) =? expected_samples)%Z
    then errors ++ [row_count_message expected_samples (len data)]
    else errors in
  let empty_features := select (columns data) (isnull_all data) in
  let errors :=
    if (0 <? length empty_features)%nat
    then errors ++ [empty_features_message (length empty_features)]
    else errors in
  let empty_samples := select (seq 0 (len data)) (isnull_all_axis1 data) in
  let errors :=
    if (0 <? length empty_samples)%nat
    then errors ++ [empty_samples_message (length empty_samples)]
    else errors in
  let is_valid := (length errors =? 0)%nat in
  ret (is_valid, errors).

(** ** calculate_missing_percentage *)

(** A float64 statistic: an exact rational, or NaN ([None]).  Rounding to
    binary64 is not modelled. *)
Definition stat := option Q.

(** [n / d] on an integer column: [0 / 0] is NaN.  A count never exceeds
    the number of rows, so no other division by zero arises. *)
Definition true_div (n d : nat) : stat :=
  if (d =? 0)%nat then None else Some (Z.of_nat n # Pos.of_nat d)%Q.

Definition times (x : stat) (k : Q) : stat :=
  match x with
  | Some q => Some (q * k)%Q
  | None => None
  end.

Definition isnan (x : stat) : bool :=
  match x with
  | None => true
  | Some _ => false
  end.

Record MissingStat := {
  feature : string;
  n_missing : nat;
  pct_missing : stat
}.

(** [numpy.argsort] is a parameter of the model.  With the default
    [kind='quicksort'] the library promises the indices that put the keys
    in ascending order, and no more: equal keys may come out in any order. *)
Definition argsort_contract (argsort : list Q -> list nat) : Prop :=
  (forall xs, Permutation (argsort xs) (seq 0 (length xs))) /\
  (forall xs,
     StronglySorted (fun i j => (nth i xs 0 <= nth j xs 0)%Q) (argsort xs)).

(** An argsort that keeps equal keys in their order ([kind='stable']). *)
Definition argsort_stable (argsort : list Q -> list nat) : Prop :=
  forall xs,
    StronglySorted
      (fun i j => (nth i xs 0 < nth j xs 0)%Q \/
                  ((nth i xs 0 == nth j xs 0)%Q /\ (i < j)%nat))
      (argsort xs).

Definition no_stat : MissingStat :=
  {| feature := ""; n_missing := 0; pct_missing := None |}.

(** [frame.take(indexer)] *)
Definition take_rows (frame : list MissingStat) (indexer : list nat)
    : list MissingStat :=
  map (fun i => nth i frame no_stat) indexer.

(** The frame built from the three columns, before sorting. *)
Definition missing_stats_unsorted (data : DataFrame) : list MissingStat :=
  let n := isnull_sum data in
  let pct := map (fun k => times (true_div k (len data)) 100) n in
  map (fun fnp => {| feature := fst (fst fnp); n_missing := snd (fst fnp);
                     pct_missing := snd fnp |})
      (combine (combine (columns data) n) pct).

Section Sorting.
Variable argsort : list Q -> list nat.

(** pandas' [nargsort(items, ascending=False, na_position='last')], the
    indexer behind [sort_values(by, ascending=False)]: the keys that are
    not NaN are reversed, argsorted and reversed again; the positions of
    the NaN keys follow in their order. *)
Definition nargsort_descending (items : list stat) : list nat :=
  let idx := seq 0 (length items) in
  let keyed := combine idx items in
  let nonnan := omap id items in
  let nonnan_idx :=
    map fst (List.filter (fun ix => negb (isnan (snd ix))) keyed) in
  let nan_idx := map fst (List.filter (fun ix => isnan (snd ix)) keyed) in
  let nonnan := rev nonnan in
  let nonnan_idx := rev nonnan_idx in
  let indexer := map (fun k => nth k nonnan_idx 0%nat) (argsort nonnan) in
  let indexer := rev indexer in
  indexer ++ nan_idx.

(** [frame.sort_values('pct_missing', ascending=False)] *)
Definition sort_values_pct_descending (frame : list MissingStat)
    : list MissingStat :=
  take_rows frame (nargsort_descending (map pct_missing frame)).

Definition calculate_missing_percentage (data : DataFrame)
    : list MissingStat :=
  let missing_stats := missing_stats_unsorted data in
  let missing_stats := sort_values_pct_descending missing_stats in
  missing_stats.

End Sorting.

(** Two argsorts that meet the contract: pairs of key and position are
    merge-sorted by key, equal keys by [tie] on the positions. *)
Definition lex_leb (tie : nat -> nat -> bool) (a b : Q * nat) : bool :=
  match Qcompare (fst a) (fst b) with
  | Lt => true
  | Eq => tie (snd a) (snd b)
  | Gt => false
  end.

Definition lex_le (tie : nat -> nat -> bool) (a b : Q * nat) : Prop :=
  Is_true (lex_leb tie a b).

Definition argsort_with (tie : nat -> nat -> bool) (xs : list Q) : list nat :=
  map snd (merge_sort (lex_le tie) (combine xs (seq 0 (length xs)))).

Definition stable_argsort : list Q -> list nat := argsort_with Nat.leb.
Definition reversing_argsort : list Q -> list nat :=
  argsort_with (fun i j => Nat.leb j i).

(** ** generate_report_summary *)

Definition nl : string := String (ascii_of_nat 10) "".

Definition digit (n : Z) : ascii := ascii_of_nat (48 + Z.to_nat n).

(** [n] written with at least two digits ([%m], [%d], [%H], [%M], [%S]). *)
Definition pad2 (n : nat) : string :=
  if (n <? 10)%nat then "0" +:+ str_nat n else str_nat n.

(** [t.strftime('%Y-%m-%d %H:%M:%S')], for a year of four digits. *)
Definition strftime (t : datetime) : string :=
  str_nat (year t) +:+ "-" +:+ pad2 (month t) +:+ "-" +:+ pad2 (day t)
  +:+ " " +:+ pad2 (hour t) +:+ ":" +:+ pad2 (minute t) +:+ ":"
  +:+ pad2 (second t).

(** [m * 2^e * 10^4] rounded to the nearest integer, ties to even. *)
Definition scaled_round (m : positive) (e : Z) : Z :=
  let num := (Z.pos m * 10000)%Z in
  if (0 <=? e)%Z then (num * 2 ^ e)%Z
  else
    let d := (2 ^ (- e))%Z in
    let q := (num / d)%Z in
    let r := (num mod d)%Z in
    if (2 * r <? d)%Z then q
    else if (d <? 2 * r)%Z then (q + 1)%Z
    else if Z.even q then q else (q + 1)%Z.

(** The digits of [n / 10^4] with four decimals. *)
Definition fixed4 (neg : bool) (n : Z) : string :=
  let f := (n mod 10000)%Z in
  (if neg then "-" else "") +:+ str_Z (n / 10000) +:+ "."
  +:+ String (digit (f / 1000)) (String (digit (f / 100 mod 10))
     (String (digit (f / 10 mod 10)) (String (digit (f mod 10)) ""))).

(** [format(x, '.4f')] of a binary64 value: correctly rounded, ties to
    even on the exact value. *)
Definition format_4f (x : float) : string :=
  match Prim2SF x with
  | S754_zero s => fixed4 s 0
  | S754_infinity s => if s then "-inf" else "inf"
  | S754_nan => "nan"
  | S754_finite s m e => fixed4 s (scaled_round m e)
  end.

Definition generate_report_summary (results : dict (dict float))
    (config : Config) : M string :=
  let summary := [] in
  let summary := summary ++ [repeat_char "=" 80] in
  let summary := summary ++ ["METABOLOMICS IMPUTATION ANALYSIS SUMMARY"] in
  let summary := summary ++ [repeat_char "=" 80] in
  let! project := lift (field "project" (cfg_project config)) in
  let! name := lift (field "name" (proj_name project)) in
  let summary := summary ++ [nl +:+ "Project: " +:+ name] in
  let! now := datetime_now in
  let summary := summary ++ ["Date: " +:+ strftime now] in
  let! ds := lift (field "dataset" (cfg_dataset config)) in
  let! dname := lift (field "name" (ds_name ds)) in
  let summary := summary ++ [nl +:+ "Dataset: " +:+ dname] in
  let! ds := lift (field "dataset" (cfg_dataset config)) in
  let! total := lift (field "total_files" (ds_total_files ds)) in
  let summary := summary ++ ["Total samples: " +:+ str_Z total] in
  let summary := summary ++ [nl +:+ repeat_char "-" 80] in
  let summary :=
    fold_left (fun summary mm =>
      let summary :=
        summary ++ [nl +:+ upper (fst mm) +:+ " Results:"] in
      fold_left (fun summary nv =>
        summary ++ ["  " +:+ fst nv +:+ ": " +:+ format_4f (snd nv)])
        (items (snd mm)) summary)
      (items results) summary in
  let summary := summary ++ [nl +:+ repeat_char "=" 80] in
  ret (join nl summary).

(** ** load_config *)

(** [open(p, 'r')] and reading what the file holds *)
Definition os_read (p : path) (f : FS) : result content :=
  if is_dir f p then Raise (IsADirectoryError p)
  else if existsb (is_file f) (ancestors p) then Raise (NotADirectoryError p)
  else match files f !! p with
       | Some c => Ok c
       | None => Raise (FileNotFoundError p)
       end.

Section Loader.
(** [yaml.safe_load], the parser of the YAML library. *)
Variable yaml_safe_load : content -> result Config.

Definition load_config (config_path : string) : M Config :=
  let! f := (fun w => (os_read (Path config_path) (fs w), w)) in
  let! config := lift (yaml_safe_load f) in
  ret config.

End Loader.

(** ** setup_logging *)

(** The logger of this module, [logging.getLogger(__name__)]. *)
Inductive logger : Type := ModuleLogger.

(** [t.strftime('%Y%m%d_%H%M%S')], for a year of four digits. *)
Definition strftime_compact (t : datetime) : string :=
  str_nat (year t) +:+ pad2 (month t) +:+ pad2 (day t) +:+ "_"
  +:+ pad2 (hour t) +:+ pad2 (minute t) +:+ pad2 (second t).

(** [logging.FileHandler(p)]: the file is opened for appending, and
    created when it is not there. *)
Definition os_open_append (p : path) (f : FS) : result FS :=
  if is_dir f p then Raise (IsADirectoryError p)
  else if existsb (is_file f) (ancestors p) then Raise (NotADirectoryError p)
  else if negb (is_dir f (parent p)) then Raise (FileNotFoundError p)
  else if is_file f p then Ok f
  else if bool_decide (parent p ∈ readonly f) then Raise (PermissionError p)
  else Ok {| dirs := dirs f; files := <[p := LogFile []]> (files f);
             readonly := readonly f |}.

(** [logging.basicConfig(level=INFO, format=..., handlers=[FileHandler,
    StreamHandler])]: installs the handlers unless the root logger already
    has some. *)
Definition basic_config (file_handlers : list path) : M unit := fun w =>
  (Ok tt,
   match root_handlers w with
   | Some _ => w
   | None =>
       {| fs := fs w; log := log w; clock := clock w; host := host w;
          root_handlers := Some file_handlers;
          np_seed := np_seed w; py_seed := py_seed w |}
   end).

Definition setup_logging (config : Config) : M logger :=
  let! paths := lift (field "paths" (cfg_paths config)) in
  let! logs := lift (getitem paths "logs") in
  let log_dir := Path logs in
  let! _ := Path_mkdir log_dir in
  let! now := datetime_now in
  let timestamp := strftime_compact now in
  let log_file :=
    joinpath log_dir ("metabolomics_imputation_" +:+ timestamp +:+ ".log") in
  let! _ := syscall (os_open_append log_file) in
  let! _ := basic_config [log_file] in
  let logger := ModuleLogger in
  let! _ := logger_info "Logging initialized" in
  ret logger.

(** ** set_random_seed *)

(** [numpy.random.seed(seed)] accepts an integer in [0, 2^32 - 1]. *)
Definition np_random_seed (seed : Z) : M unit := fun w =>
  if ((0 <=? seed) && (seed <? 2 ^ 32))%Z
  then (Ok tt, {| fs := fs w; log := log w; clock := clock w; host := host w;
                  root_handlers := root_handlers w;
                  np_seed := Some seed; py_seed := py_seed w |})
  else (Raise (ValueError "Seed must be between 0 and 2**32 - 1"), w).

(** [random.seed(seed)] *)
Definition random_seed (seed : Z) : M unit := fun w =>
  (Ok tt, {| fs := fs w; log := log w; clock := clock w; host := host w;
             root_handlers := root_handlers w;
             np_seed := np_seed w; py_seed := Some seed |}).

Definition set_random_seed (seed : option Z) : M unit :=
  match seed with
  | Some seed =>
      let! _ := np_random_seed seed in
      let! _ := random_seed seed in
      logging_info ("Random seed set to " +:+ str_Z seed)
  | None => ret tt
  end.

(** ** export_session_info *)

(** [n] written with six digits ([%f]). *)
Definition pad6 (n : nat) : string :=
  repeat_char "0" (6 - String.length (str_nat n)) +:+ str_nat n.

(** [t.isoformat()] *)
Definition isoformat (t : datetime) : string :=
  str_nat (year t) +:+ "-" +:+ pad2 (month t) +:+ "-" +:+ pad2 (day t)
  +:+ "T" +:+ pad2 (hour t) +:+ ":" +:+ pad2 (minute t) +:+ ":"
  +:+ pad2 (second t)
  +:+ (if (microsecond t =? 0)%nat then "" else "." +:+ pad6 (microsecond t)).

Definition export_session_info (config : Config)
    (output_path : option string) : M unit :=
  let! now := datetime_now in
  let! h := (fun w => (Ok (host w), w)) in
  let session_info :=
    {| si_timestamp := isoformat now;
       si_python_version := sys_version h;
       si_platform := platform_name h;
       si_config := config |} in
  let! output_path :=
    match output_path with
    | None =>
        let! paths := lift (field "paths" (cfg_paths config)) in
        let! results := lift (getitem paths "results") in
        let p := joinpath (Path results) "session_info.yaml" in
        ret (p, str_path p)
    | Some s => ret (Path s, s)
    end in
  let! _ := syscall (os_write (fst output_path) (SessionYaml session_info)) in
  logging_info ("Session info saved to " +:+ snd output_path).

(** ** The specification's reading of the operations *)

(** The rows the specification promises for one group: indices 1 to
    [count], the group's colour or the neutral default. *)
Definition group_rows (colors : dict string) (g : string) (count : Z)
    : list SampleRow :=
  map (fun i => {| sample_id := g +:+ "_" +:+ str_Z (Z.of_nat i);
                   group := g;
                   color := match lookup_key colors g with
                            | Some c => c
                            | None => "#999999"
                            end |})
      (seq 1 (Z.to_nat count)).

Definition spec_sample_info (colors : dict string) (samples : dict Z)
    : list SampleRow :=
  flat_map (fun gc => group_rows colors (fst gc) (snd gc)) samples.

(** A column, or a row, in which every value is absent. *)
Definition column_entirely_missing (data : DataFrame) (j : nat) : Prop :=
  forall r, In r (rows data) -> cell_at r j = None.

Definition row_entirely_missing (data : DataFrame) (r : list cell) : Prop :=
  forall j, (j < length (columns data))%nat -> cell_at r j = None.

Definition no_column_entirely_missing (data : DataFrame) : Prop :=
  forall j, (j < length (columns data))%nat ->
    ~ column_entirely_missing data j.

Definition no_row_entirely_missing (data : DataFrame) : Prop :=
  forall r, In r (rows data) -> ~ row_entirely_missing data r.

Definition is_row_count_message (s : string) : bool :=
  startswith s "Expected ".

(** The three checks, each contributing no message or one. *)
Definition row_count_errors (data : DataFrame) (expected : Z) : list string :=
  if (Z.of_nat (len data) =? expected)%Z then []
  else [row_count_message expected (len data)].

Definition empty_feature_errors (data : DataFrame) : list string :=
  let n := length (select (columns data) (isnull_all data)) in
  if (0 <? n)%nat then [empty_features_message n] else [].

Definition empty_sample_errors (data : DataFrame) : list string :=
  let n := length (select (seq 0 (len data)) (isnull_all_axis1 data)) in
  if (0 <? n)%nat then [empty_samples_message n] else [].


(** Number of missing cells of column [j]. *)
Definition count_missing (data : DataFrame) (j : nat) : nat :=
  length (List.filter isnull (column data j)).

(** The value the code computes for column [j]: [n / len * 100]. *)
Definition pct_code (data : DataFrame) (j : nat) : stat :=
  times (true_div (count_missing data j) (len data)) 100.

(** The same value when there is at least one row. *)
Definition pct_value (data : DataFrame) (j : nat) : Q :=
  ((Z.of_nat (count_missing data j) # Pos.of_nat (len data)) * 100)%Q.



(** The row of column [j] when the data set has no rows. *)
Definition nan_stat (c : string) : MissingStat :=
  {| feature := c; n_missing := 0; pct_missing := None |}.


(** [w'] is [w] with possibly more directories, and nothing else changed. *)
Definition extends (w w' : World) : Prop :=
  dirs (fs w) ⊆ dirs (fs w') /\
  files (fs w') = files (fs w) /\
  readonly (fs w') = readonly (fs w) /\
  w' = set_fs w (fs w').

(** Every directory lies in a directory. *)
Definition parents_closed (f : FS) : Prop :=
  forall p, p ∈ dirs f -> is_dir f (parent p) = true.

(** What a step that creates [p] may do to the world. *)
Definition creates (p : path) (w w' : World) (r : result unit) : Prop :=
  extends w w' /\
  (parents_closed (fs w) -> parents_closed (fs w')) /\
  (is_ok r = true -> is_dir (fs w') p = true).

(** The encodings [save_results] chooses between, as the specification
    lists them. *)
Inductive encoding : Type := CSV | XLSX | PICKLE | NPY.

Definition spec_encoding (data : artifact) (filename : string)
    : option encoding :=
  match data with
  | Frame _ =>
      if endswith filename ".csv" then Some CSV
      else if endswith filename ".xlsx" then Some XLSX
      else Some PICKLE
  | Array _ => Some NPY
  | OtherObject => None
  end.

Definition encoding_of (c : content) : option encoding :=
  match c with
  | CsvText _ => Some CSV
  | ExcelWorkbook _ => Some XLSX
  | PickleSnapshot _ => Some PICKLE
  | NpyArray _ => Some NPY
  | _ => None
  end.

(** The artifact a file holds. *)
Definition payload (c : content) : option artifact :=
  match c with
  | CsvText df | ExcelWorkbook df | PickleSnapshot df => Some (Frame df)
  | NpyArray a => Some (Array a)
  | _ => None
  end.

(** What the artifact is written as. *)
Definition written (data : artifact) (filename : string) : option content :=
  match data with
  | Frame df =>
      Some (if endswith filename ".csv" then CsvText df
            else if endswith filename ".xlsx" then ExcelWorkbook df
            else PickleSnapshot df)
  | Array a => Some (NpyArray a)
  | OtherObject => None
  end.

(** Where [save_results] writes. *)
Definition target (data : artifact) (output_path : path) : path :=
  match data with
  | Array _ => npy_target output_path
  | _ => output_path
  end.

(** The head of the report: title block, project, date, data set, total
    and separator. *)
Definition report_preamble (name : string) (now : datetime) (dname : string)
    (total : Z) : list string :=
  [repeat_char "=" 80;
   "METABOLOMICS IMPUTATION ANALYSIS SUMMARY";
   repeat_char "=" 80;
   nl +:+ "Project: " +:+ name;
   "Date: " +:+ strftime now;
   nl +:+ "Dataset: " +:+ dname;
   "Total samples: " +:+ str_Z total;
   nl +:+ repeat_char "-" 80].

(** [{"knn": {"rmse": 0.12345}}] *)
Definition knn_results : dict (dict float) :=
  [("knn", [("rmse", 0.12345%float)])].

(** The block of the report for one method. *)
Definition method_block (mm : string * dict float) : list string :=
  (nl +:+ upper (fst mm) +:+ " Results:")
  :: map (fun nv => "  " +:+ fst nv +:+ ": " +:+ format_4f (snd nv))
         (items (snd mm)).

(** The exact value [m * 2^e] of a finite binary64 magnitude. *)
Definition magnitude (m : positive) (e : Z) : Q :=
  (inject_Z (Z.pos m) * Qpower 2 e)%Q.

(** ** Further notions *)

(** Whether the character occurs in the text. *)
Fixpoint contains_char (c : ascii) (s : string) : bool :=
  match s with
  | EmptyString => false
  | String a s' => Ascii.eqb a c || contains_char c s'
  end.

(** Whether the statistics row counts as many missing cells as the data
    set has rows. *)
Definition fully_missing (data : DataFrame) (r : MissingStat) : bool :=
  (n_missing r =? len data)%nat.

(** What creating the directories [targets] with their parents may add to
    a file system: every directory of [f'] was one of [f], or it is a
    target or lies above one, and in [f] it was no regular file and lay
    under none. *)
Definition added_towards (targets : list path) (f f' : FS) : Prop :=
  forall q, q ∈ dirs f' ->
    q ∈ dirs f \/
    (is_file f q = false /\ existsb (is_file f) (ancestors q) = false /\
     exists p, In p targets /\ q `prefix_of` p).

(** The values a [datetime] can hold, for a year that [%Y] writes with
    four digits. *)
Definition valid_datetime (t : datetime) : Prop :=
  (1000 <= Z.of_nat (year t) <= 9999)%Z /\ (1 <= month t <= 12)%nat /\
  (1 <= day t <= 31)%nat /\ (hour t < 24)%nat /\ (minute t < 60)%nat /\
  (second t < 60)%nat.

(** ** Concrete inputs used below *)

Definition example_config : Config :=
  {| cfg_paths := Some [("results", "out/results"); ("logs", "/var/log/run")];
     cfg_dataset :=
       Some {| ds_name := Some "D"; ds_total_files := Some 3%Z;
               ds_samples := Some [("ctl", 2%Z); ("trt", 1%Z)] |};
     cfg_visualization := Some {| viz_colors := Some [("ctl", "#00ff00")] |};
     cfg_project := Some {| proj_name := Some "Test" |} |}.

(** [{"dataset": {"samples": {"a": 1, "b": -1}},
      "visualization": {"colors": {}}}] *)
Definition negative_count_config : Config :=
  {| cfg_paths := None;
     cfg_dataset :=
       Some {| ds_name := None; ds_total_files := None;
               ds_samples := Some [("a", 1%Z); ("b", (-1)%Z)] |};
     cfg_visualization := Some {| viz_colors := Some [] |};
     cfg_project := None |}.

(** [{"dataset": {"samples": {}}}]: no visualization section at all. *)
Definition no_groups_config : Config :=
  {| cfg_paths := None;
     cfg_dataset :=
       Some {| ds_name := None; ds_total_files := None;
               ds_samples := Some [] |};
     cfg_visualization := None;
     cfg_project := None |}.

(** [{"dataset": {"samples": {"ctl": 2}}}]: no visualization section. *)
Definition no_colors_config : Config :=
  {| cfg_paths := None;
     cfg_dataset :=
       Some {| ds_name := None; ds_total_files := None;
               ds_samples := Some [("ctl", 2%Z)] |};
     cfg_visualization := None;
     cfg_project := None |}.

(** Three samples, two features, two missing cells. *)
Definition example_frame : DataFrame :=
  {| columns := ["m1"; "m2"];
     rows := [[Some 1%Q; None]; [Some 2%Q; Some 3%Q]; [None; Some 4%Q]] |}.

(** Two samples, two features, nothing missing. *)
Definition complete_frame : DataFrame :=
  {| columns := ["m1"; "m2"];
     rows := [[Some 1%Q; Some 5%Q]; [Some 2%Q; Some 3%Q]] |}.

(** Two features, no sample. *)
Definition zero_row_frame : DataFrame :=
  {| columns := ["m1"; "m2"]; rows := [] |}.

Definition empty_fs : FS := {| dirs := ∅; files := ∅; readonly := ∅ |}.

(** A file system in which [out] is a regular file. *)
Definition blocked_fs : FS :=
  {| dirs := ∅;
     files := {[ ["out"] := Text "notes" ]};
     readonly := ∅ |}.

Definition example_world : World :=
  {| fs := empty_fs; log := [];
     clock := {| year := 2024; month := 3; day := 9;
                 hour := 7; minute := 5; second := 0; microsecond := 0 |};
     host := {| sys_version := "3.11.4 (main)";
                platform_name := "Linux-6.1-x86_64" |};
     root_handlers := None; np_seed := None; py_seed := None |}.

Definition blocked_world : World :=
  set_fs example_world blocked_fs.

(** [{"dataset": {"samples": {"a": 2, "a_1": 1}},
      "visualization": {"colors": {}}}]: a group name that ends like a
    sample id. *)
Definition underscore_config : Config :=
  {| cfg_paths := None;
     cfg_dataset :=
       Some {| ds_name := None; ds_total_files := None;
               ds_samples := Some [("a", 2%Z); ("a_1", 1%Z)] |};
     cfg_visualization := Some {| viz_colors := Some [] |};
     cfg_project := None |}.

(** * Properties *)

(** ** Results and loops *)

Lemma rbind_ok {A B} (r : result A) (k : A -> result B) (b : B) :
  rbind r k = Ok b -> exists a, r = Ok a /\ k a = Ok b.
Proof. destruct r as [a|e]; simpl; intros Hk; [eauto | discriminate]. Qed.

Lemma sum_shift (l : list Z) (a : Z) :
  fold_left Z.add l a = (a + fold_left Z.add l 0%Z)%Z.
Proof.
  revert a. induction l as [|x l IH]; intros a; simpl.
  - lia.
  - rewrite (IH (a + x)%Z), (IH (0 + x)%Z). lia.
Qed.

Lemma sum_cons (x : Z) (l : list Z) : sum (x :: l) = (x + sum l)%Z.
Proof. unfold sum. simpl. apply sum_shift. Qed.

(** ** get_sample_info *)

Section SampleInfo.
Variable config : Config.

Section WithColors.
Variables (viz : VisualizationSection) (colors : dict string).
Hypothesis Hviz : cfg_visualization config = Some viz.
Hypothesis Hcolors : viz_colors viz = Some colors.

Lemma sample_row_ok (g : string) (i : nat) :
  sample_row config g (Z.of_nat i) =
  Ok {| sample_id := g +:+ "_" +:+ str_Z (Z.of_nat (S i));
        group := g;
        color := match lookup_key colors g with
                 | Some c => c
                 | None => "#999999"
                 end |}.
Proof.
  unfold sample_row. rewrite Hviz. simpl. rewrite Hcolors. simpl.
  replace (Z.of_nat i + 1)%Z with (Z.of_nat (S i)) by lia.
  reflexivity.
Qed.

Lemma inner_loop_ok (g : string) (n s : nat) (acc : list SampleRow) :
  for_acc (map Z.of_nat (seq s n)) (append_row config g) acc =
  Ok (acc ++ map (fun i =>
        {| sample_id := g +:+ "_" +:+ str_Z (Z.of_nat i);
           group := g;
           color := match lookup_key colors g with
                    | Some c => c
                    | None => "#999999"
                    end |}) (seq (S s) n)).
Proof.
  revert s acc. induction n as [|n IH]; intros s acc; simpl.
  - now rewrite app_nil_r.
  - unfold append_row at 1. rewrite sample_row_ok. simpl.
    rewrite IH. now rewrite <- app_assoc.
Qed.

Lemma outer_loop_ok (samples : dict Z) (acc : list SampleRow) :
  for_acc samples (append_group config) acc = Ok (acc ++ spec_sample_info colors samples).
Proof.
  revert acc. induction samples as [|[g count] samples IH]; intros acc; simpl.
  - now rewrite app_nil_r.
  - unfold range. rewrite inner_loop_ok. simpl.
    rewrite IH. unfold group_rows. now rewrite <- app_assoc.
Qed.

End WithColors.

(** A loop whose every iteration raises. *)
Lemma inner_loop_raises (g : string) (e : exn) (count : Z)
    (acc : list SampleRow) :
  (forall i, sample_row config g i = Raise e) ->
  for_acc (range count) (append_row config g) acc =
  if (0 <? count)%Z then Raise e else Ok acc.
Proof.
  intros Hraise. unfold range.
  destruct (0 <? count)%Z eqn:Hpos.
  - apply Z.ltb_lt in Hpos.
    destruct (Z.to_nat count) as [|n] eqn:Hn; [lia|].
    simpl. unfold append_row. now rewrite Hraise.
  - apply Z.ltb_ge in Hpos.
    replace (Z.to_nat count) with 0%nat by lia. reflexivity.
Qed.

Lemma outer_loop_raises (e : exn) (samples : dict Z) (acc : list SampleRow) :
  (forall g i, sample_row config g i = Raise e) ->
  for_acc samples (append_group config) acc =
  if existsb (fun gc => (0 <? snd gc)%Z) samples then Raise e else Ok acc.
Proof.
  intros Hraise. revert acc.
  induction samples as [|[g count] samples IH]; intros acc; simpl.
  - reflexivity.
  - rewrite (inner_loop_raises g e) by auto.
    destruct (0 <? count)%Z; simpl; [reflexivity | apply IH].
Qed.

End SampleInfo.

Lemma group_rows_length (colors : dict string) (g : string) (count : Z) :
  length (group_rows colors g count) = Z.to_nat count.
Proof. unfold group_rows. now rewrite length_map, length_seq. Qed.

Lemma spec_sample_info_length (colors : dict string) (samples : dict Z) :
  Forall (fun c => (0 <= c)%Z) (values samples) ->
  Z.of_nat (length (spec_sample_info colors samples)) = sum (values samples).
Proof.
  unfold values. induction samples as [|[g c] samples IH]; simpl; intros Hpos.
  - reflexivity.
  - inversion Hpos as [|? ? Hc Hrest]; subst.
    rewrite length_app, group_rows_length, sum_cons, Nat2Z.inj_add, IH by assumption.
    simpl in Hc. lia.
Qed.

Lemma spec_sample_info_colors (colors : dict string) (samples : dict Z) :
  Forall (fun r => color r = match lookup_key colors (group r) with
                             | Some c => c
                             | None => "#999999"
                             end)
         (spec_sample_info colors samples).
Proof.
  unfold spec_sample_info. apply List.Forall_forall. intros r Hr.
  apply in_flat_map in Hr. destruct Hr as [[g c] [_ Hr]].
  unfold group_rows in Hr. apply in_map_iff in Hr.
  destruct Hr as [i [<- _]]. reflexivity.
Qed.

(** C3 (amended).  For a configuration that holds [dataset.samples] with
    non-negative counts and a [visualization.colors] mapping,
    [get_sample_info] returns exactly the rows the specification lists:
    the groups in stored order, ids [{group}_1] to [{group}_count], the
    group's colour or ['#999999']; their number is the sum of the counts. *)
Theorem get_sample_info_rows (config : Config) (ds : DatasetSection)
    (viz : VisualizationSection) (samples : dict Z) (colors : dict string) :
  cfg_dataset config = Some ds ->
  ds_samples ds = Some samples ->
  cfg_visualization config = Some viz ->
  viz_colors viz = Some colors ->
  Forall (fun c => (0 <= c)%Z) (values samples) ->
  exists table,
    get_sample_info config = Ok table /\
    table = spec_sample_info colors samples /\
    Z.of_nat (length table) = sum (values samples).
Proof.
  intros Hds Hsamples Hviz Hcolors Hpos.
  exists (spec_sample_info colors samples). split; [|split].
  - unfold get_sample_info. rewrite Hds. simpl. rewrite Hsamples. simpl.
    unfold items. now rewrite (outer_loop_ok config viz colors Hviz Hcolors).
  - reflexivity.
  - now apply spec_sample_info_length.
Qed.

Lemma get_sample_info_rows_witness :
  Forall (fun c => (0 <= c)%Z) (values [("ctl", 2%Z); ("trt", 1%Z)]) /\
  exists table,
    get_sample_info example_config = Ok table /\
    table = spec_sample_info [("ctl", "#00ff00")] [("ctl", 2%Z); ("trt", 1%Z)] /\
    Z.of_nat (length table) = sum (values [("ctl", 2%Z); ("trt", 1%Z)]).
Proof.
  assert (Hpos : Forall (fun c => (0 <= c)%Z)
                        (values [("ctl", 2%Z); ("trt", 1%Z)])).
  { repeat constructor; simpl; lia. }
  split; [exact Hpos|].
  exact (get_sample_info_rows example_config _ _ _ _
           eq_refl eq_refl eq_refl eq_refl Hpos).
Defined.

(** C3 as stated fails on a negative count: with [{"a": 1, "b": -1}] the
    counts sum to 0, yet one row is produced, since [range(-1)] is empty. *)
Lemma get_sample_info_negative_count :
  sum (values [("a", 1%Z); ("b", (-1)%Z)]) = 0%Z /\
  get_sample_info negative_count_config =
    Ok [{| sample_id := "a_1"; group := "a"; color := "#999999" |}] /\
  ~ (forall config ds viz samples colors,
       cfg_dataset config = Some ds -> ds_samples ds = Some samples ->
       cfg_visualization config = Some viz -> viz_colors viz = Some colors ->
       exists table, get_sample_info config = Ok table /\
                     Z.of_nat (length table) = sum (values samples)).
Proof.
  split; [reflexivity|]. split; [reflexivity|].
  intros Hclaim.
  destruct (Hclaim negative_count_config _ _ _ _
              eq_refl eq_refl eq_refl eq_refl) as [table [Hrun Hlen]].
  vm_compute in Hrun. inversion Hrun; subst. vm_compute in Hlen. discriminate.
Qed.

(** C10 (amended).  [get_sample_info] raises [KeyError] when the
    configuration lacks [dataset] or [dataset.samples]; when it lacks
    [visualization] or [visualization.colors] it raises [KeyError] exactly
    if some group has a positive count, because the colours are looked up
    once per emitted row, and otherwise returns the empty table.  Inside an
    existing colours mapping a group without colour gets ['#999999']. *)
Theorem get_sample_info_key_errors (config : Config) :
  (cfg_dataset config = None ->
   get_sample_info config = Raise (KeyError "dataset")) /\
  (forall ds, cfg_dataset config = Some ds -> ds_samples ds = None ->
   get_sample_info config = Raise (KeyError "samples")) /\
  (forall ds samples,
     cfg_dataset config = Some ds -> ds_samples ds = Some samples ->
     (cfg_visualization config = None ->
      get_sample_info config =
      if existsb (fun gc => (0 <? snd gc)%Z) samples
      then Raise (KeyError "visualization") else Ok []) /\
     (forall viz,
        cfg_visualization config = Some viz -> viz_colors viz = None ->
        get_sample_info config =
        if existsb (fun gc => (0 <? snd gc)%Z) samples
        then Raise (KeyError "colors") else Ok []) /\
     (forall viz colors,
        cfg_visualization config = Some viz -> viz_colors viz = Some colors ->
        exists table,
          get_sample_info config = Ok table /\
          Forall (fun r => lookup_key colors (group r) = None ->
                           color r = "#999999") table /\
          Forall (fun r => forall c, lookup_key colors (group r) = Some c ->
                                     color r = c) table)).
Proof.
  unfold get_sample_info, items.
  split; [|split].
  - intros ->. reflexivity.
  - intros ds ->. simpl. intros ->. reflexivity.
  - intros ds samples ->. simpl. intros ->. simpl. split; [|split].
    + intros Hviz. apply outer_loop_raises. intros g i.
      unfold sample_row. now rewrite Hviz.
    + intros viz Hviz Hcolors. apply outer_loop_raises. intros g i.
      unfold sample_row. rewrite Hviz. simpl. now rewrite Hcolors.
    + intros viz colors Hviz Hcolors.
      exists (spec_sample_info colors samples).
      rewrite (outer_loop_ok config viz colors Hviz Hcolors). simpl.
      split; [reflexivity|].
      split; eapply Forall_impl; try apply spec_sample_info_colors;
        simpl; intros r Hr.
      * intros Hnone. now rewrite Hnone in Hr.
      * intros c Hsome. now rewrite Hsome in Hr.
Qed.

Lemma get_sample_info_key_errors_witness :
  cfg_visualization no_colors_config = None /\
  get_sample_info no_colors_config = Raise (KeyError "visualization").
Proof.
  split; [reflexivity|].
  destruct (get_sample_info_key_errors no_colors_config) as [_ [_ Hviz]].
  destruct (Hviz _ [("ctl", 2%Z)] eq_refl eq_refl) as [Hnone _].
  exact (Hnone eq_refl).
Defined.

(** C10 as stated fails when no group has a positive count: without any
    [visualization] section the call returns the empty table, no
    [KeyError], because the colour lookup sits inside the inner loop. *)
Lemma get_sample_info_lazy_color_lookup :
  cfg_visualization no_groups_config = None /\
  get_sample_info no_groups_config = Ok [].
Proof. split; reflexivity. Qed.

(** ** validate_data *)

Lemma select_length_le {A} (labels : list A) (mask : list bool) :
  (length (select labels mask) <= length labels)%nat.
Proof.
  unfold select. rewrite length_map.
  etransitivity; [apply List.filter_length_le|].
  rewrite length_combine. lia.
Qed.

Lemma select_all_false {A} (labels : list A) (mask : list bool) :
  (forall b, In b mask -> b = false) -> select labels mask = [].
Proof.
  unfold select. revert mask.
  induction labels as [|x labels IH]; intros [|b mask] Hmask; simpl; auto.
  rewrite (Hmask b) by now left. simpl. apply IH.
  intros b' Hb'. apply Hmask. now right.
Qed.


Lemma isnull_true (c : cell) : isnull c = true <-> c = None.
Proof. destruct c; simpl; split; intros; congruence. Qed.

Lemma column_all_null (data : DataFrame) (j : nat) :
  forallb isnull (column data j) = true <-> column_entirely_missing data j.
Proof.
  unfold column, column_entirely_missing. rewrite forallb_forall. split.
  - intros Hall r Hr. apply isnull_true, Hall, in_map_iff. eauto.
  - intros Hall c Hc. apply in_map_iff in Hc. destruct Hc as [r [<- Hr]].
    apply isnull_true. auto.
Qed.

Lemma row_all_null (data : DataFrame) (r : list cell) :
  forallb (fun j => isnull (cell_at r j)) (column_ids data) = true <->
  row_entirely_missing data r.
Proof.
  unfold column_ids, row_entirely_missing. rewrite forallb_forall. split.
  - intros Hall j Hj. apply isnull_true, Hall, in_seq. lia.
  - intros Hall j Hj. apply in_seq in Hj. apply isnull_true, Hall. lia.
Qed.

Lemma isnull_all_false (data : DataFrame) :
  no_column_entirely_missing data ->
  forall b, In b (isnull_all data) -> b = false.
Proof.
  intros Hno b Hb. unfold isnull_all in Hb. apply in_map_iff in Hb.
  destruct Hb as [j [<- Hj]]. apply in_seq in Hj.
  apply not_true_is_false. intros Hall.
  apply column_all_null in Hall. apply (Hno j); [lia | assumption].
Qed.

Lemma isnull_all_axis1_false (data : DataFrame) :
  no_row_entirely_missing data ->
  forall b, In b (isnull_all_axis1 data) -> b = false.
Proof.
  intros Hno b Hb. unfold isnull_all_axis1 in Hb. apply in_map_iff in Hb.
  destruct Hb as [r [<- Hr]].
  apply not_true_is_false. intros Hall.
  apply row_all_null in Hall. now apply (Hno r).
Qed.

Lemma startswith_append (p s : string) : startswith (p +:+ s) p = true.
Proof.
  induction p as [|a p IH]; simpl; [reflexivity|].
  now rewrite Ascii.eqb_refl.
Qed.

Lemma row_count_message_is (expected : Z) (got : nat) :
  is_row_count_message (row_count_message expected got) = true.
Proof. apply startswith_append. Qed.

Lemma empty_features_message_is_not (n : nat) :
  is_row_count_message (empty_features_message n) = false.
Proof. reflexivity. Qed.

Lemma empty_samples_message_is_not (n : nat) :
  is_row_count_message (empty_samples_message n) = false.
Proof. reflexivity. Qed.

Lemma validate_data_run (data : DataFrame) (config : Config)
    (ds : DatasetSection) (samples : dict Z) (w : World) :
  cfg_dataset config = Some ds ->
  ds_samples ds = Some samples ->
  let errors := row_count_errors data (sum (values samples))
                ++ empty_feature_errors data ++ empty_sample_errors data in
  validate_data data config w = (Ok ((length errors =? 0)%nat, errors), w).
Proof.
  intros Hds Hsamples.
  unfold validate_data, bind, lift, ret. rewrite Hds. simpl.
  rewrite Hsamples. simpl.
  unfold row_count_errors, empty_feature_errors, empty_sample_errors.
  destruct (Z.of_nat (len data) =? sum (values samples))%Z,
    (0 <? length (select (columns data) (isnull_all data)))%nat,
    (0 <? length (select (seq 0 (len data)) (isnull_all_axis1 data)))%nat;
    reflexivity.
Qed.

(** C2.  Given [dataset.samples], [validate_data] returns (it does not
    raise) a flag that is true exactly when the error list is empty; the
    list holds the messages of the row-count, empty-feature and
    empty-sample checks in that order; a row count that differs from the
    sum of the group counts gives exactly one row-count message and a false
    flag; a matching row count without an entirely missing column or row
    gives [(true, [])]. *)
Theorem validate_data_result (data : DataFrame) (config : Config)
    (ds : DatasetSection) (samples : dict Z) (w : World) :
  cfg_dataset config = Some ds ->
  ds_samples ds = Some samples ->
  exists is_valid errors,
    validate_data data config w = (Ok (is_valid, errors), w) /\
    (is_valid = true <-> errors = []) /\
    errors = row_count_errors data (sum (values samples))
             ++ empty_feature_errors data ++ empty_sample_errors data /\
    (Z.of_nat (len data) <> sum (values samples) ->
     length (List.filter is_row_count_message errors) = 1%nat /\
     is_valid = false) /\
    (Z.of_nat (len data) = sum (values samples) ->
     no_column_entirely_missing data -> no_row_entirely_missing data ->
     is_valid = true /\ errors = []).
Proof.
  intros Hds Hsamples.
  eexists _, _. split; [now apply (validate_data_run data config ds samples)|].
  split; [|split; [reflexivity|split]].
  - rewrite Nat.eqb_eq. apply length_zero_iff_nil.
  - intros Hne. apply Z.eqb_neq in Hne.
    unfold row_count_errors, empty_feature_errors, empty_sample_errors.
    rewrite Hne.
    destruct (0 <? length (select (columns data) (isnull_all data)))%nat,
      (0 <? length (select (seq 0 (len data)) (isnull_all_axis1 data)))%nat;
      simpl; rewrite ?row_count_message_is; simpl; split; reflexivity.
  - intros Heq Hcols Hrows. apply Z.eqb_eq in Heq.
    unfold row_count_errors, empty_feature_errors, empty_sample_errors.
    rewrite Heq.
    rewrite (select_all_false _ _ (isnull_all_false data Hcols)).
    rewrite (select_all_false _ _ (isnull_all_axis1_false data Hrows)).
    split; reflexivity.
Qed.

Lemma validate_data_result_witness :
  (cfg_dataset example_config =
     Some {| ds_name := Some "D"; ds_total_files := Some 3%Z;
             ds_samples := Some [("ctl", 2%Z); ("trt", 1%Z)] |} /\
   ds_samples {| ds_name := Some "D"; ds_total_files := Some 3%Z;
                 ds_samples := Some [("ctl", 2%Z); ("trt", 1%Z)] |} =
     Some [("ctl", 2%Z); ("trt", 1%Z)]) /\
  exists is_valid errors,
    validate_data example_frame example_config example_world =
      (Ok (is_valid, errors), example_world) /\
    (is_valid = true <-> errors = []) /\
    errors = row_count_errors example_frame
               (sum (values [("ctl", 2%Z); ("trt", 1%Z)]))
             ++ empty_feature_errors example_frame
             ++ empty_sample_errors example_frame /\
    (Z.of_nat (len example_frame) <> sum (values [("ctl", 2%Z); ("trt", 1%Z)]) ->
     length (List.filter is_row_count_message errors) = 1%nat /\
     is_valid = false) /\
    (Z.of_nat (len example_frame) = sum (values [("ctl", 2%Z); ("trt", 1%Z)]) ->
     no_column_entirely_missing example_frame ->
     no_row_entirely_missing example_frame ->
     is_valid = true /\ errors = []).
Proof.
  split; [split; reflexivity|].
  exact (validate_data_result example_frame example_config _ _ example_world
           eq_refl eq_refl).
Defined.

(** What the validator answers on the inputs above, and on a frame
    without rows: there every column is vacuously all-missing. *)
Example validate_data_example :
  fst (validate_data example_frame example_config example_world) =
  Ok (true, []).
Proof. reflexivity. Qed.

Example validate_data_zero_rows :
  fst (validate_data zero_row_frame example_config example_world) =
  Ok (false, ["Expected 3 samples, got 0";
              "Found 2 completely empty features"]).
Proof. reflexivity. Qed.


(** ** Lists, positions and sortedness *)

Section ListFacts.
Context {A B : Type}.

Lemma map_nth_seq (f : A -> B) (l : list A) (d : A) (s : nat) :
  map (fun j => f (nth (j - s) l d)) (seq s (length l)) = map f l.
Proof.
  revert s. induction l as [|x l IH]; intros s; simpl; [reflexivity|].
  rewrite Nat.sub_diag. f_equal.
  rewrite <- (IH (S s)). apply map_ext_in. intros j Hj.
  apply in_seq in Hj. replace (j - s)%nat with (S (j - S s)) by lia.
  reflexivity.
Qed.

Lemma map_fst_combine_eq (l : list A) (l' : list B) :
  length l = length l' -> map fst (combine l l') = l.
Proof.
  revert l'. induction l as [|x l IH]; intros [|y l'] Hlen;
    simpl in *; try discriminate; [reflexivity|].
  f_equal. apply IH. lia.
Qed.

Lemma filter_all (p : A -> bool) (l : list A) :
  (forall x, In x l -> p x = true) -> List.filter p l = l.
Proof.
  induction l as [|x l IH]; intros Hall; simpl; [reflexivity|].
  rewrite (Hall x) by now left. f_equal. apply IH.
  intros y Hy. apply Hall. now right.
Qed.

Lemma filter_none (p : A -> bool) (l : list A) :
  (forall x, In x l -> p x = false) -> List.filter p l = [].
Proof.
  induction l as [|x l IH]; intros Hall; simpl; [reflexivity|].
  rewrite (Hall x) by now left. apply IH.
  intros y Hy. apply Hall. now right.
Qed.

Lemma sorted_weaken (R R' : A -> A -> Prop) (l : list A) :
  (forall x y, In x l -> In y l -> R x y -> R' x y) ->
  StronglySorted R l -> StronglySorted R' l.
Proof.
  intros Himpl Hs. induction Hs as [|x l Hs IH Hx]; constructor.
  - apply IH. intros y z Hy Hz. apply Himpl; now right.
  - rewrite List.Forall_forall in *. intros y Hy.
    apply Himpl; [now left | now right | now apply Hx].
Qed.

Lemma sorted_map (R : B -> B -> Prop) (f : A -> B) (l : list A) :
  StronglySorted (fun x y => R (f x) (f y)) l -> StronglySorted R (map f l).
Proof.
  intros Hs. induction Hs as [|x l Hs IH Hx]; simpl; constructor.
  - exact IH.
  - rewrite List.Forall_forall in *. intros y Hy.
    apply in_map_iff in Hy. destruct Hy as [z [<- Hz]]. now apply Hx.
Qed.



End ListFacts.

Lemma map_nth_all {A} (l : list A) (d : A) :
  map (fun j => nth j l d) (seq 0 (length l)) = l.
Proof.
  transitivity (map (fun x => x) l); [|apply map_id].
  rewrite <- (map_nth_seq (fun x => x) l d 0).
  apply map_ext. intros j. now rewrite Nat.sub_0_r.
Qed.





(** ** calculate_missing_percentage *)

Lemma zip3_seq {A B C D} (mk : A -> B -> C -> D) (d : A) (l : list A)
    (g : nat -> B) (h : nat -> C) (s : nat) :
  map (fun x => mk (fst (fst x)) (snd (fst x)) (snd x))
      (combine (combine l (map g (seq s (length l))))
               (map h (seq s (length l)))) =
  map (fun j => mk (nth (j - s) l d) (g j) (h j)) (seq s (length l)).
Proof.
  revert s. induction l as [|x l IH]; intros s; simpl; [reflexivity|].
  rewrite Nat.sub_diag. f_equal. rewrite IH.
  apply map_ext_in. intros j Hj. apply in_seq in Hj.
  replace (j - s)%nat with (S (j - S s)) by lia. reflexivity.
Qed.

Lemma missing_stats_unsorted_spec (data : DataFrame) :
  missing_stats_unsorted data =
  map (fun j => {| feature := nth j (columns data) "";
                   n_missing := count_missing data j;
                   pct_missing := pct_code data j |})
      (seq 0 (length (columns data))).
Proof.
  unfold missing_stats_unsorted, isnull_sum, column_ids.
  rewrite map_map.
  rewrite (zip3_seq (fun f n p => {| feature := f; n_missing := n;
                                     pct_missing := p |}) ""
             (columns data) _ _ 0).
  apply map_ext. intros j. now rewrite Nat.sub_0_r.
Qed.

Lemma missing_stats_unsorted_length (data : DataFrame) :
  length (missing_stats_unsorted data) = length (columns data).
Proof. now rewrite missing_stats_unsorted_spec, length_map, length_seq. Qed.



Lemma pct_code_some (data : DataFrame) (j : nat) :
  (0 < len data)%nat -> pct_code data j = Some (pct_value data j).
Proof.
  intros Hlen. unfold pct_code, true_div, pct_value.
  destruct (Nat.eqb_spec (len data) 0) as [H0|_]; [lia | reflexivity].
Qed.



Lemma pct_code_zero_rows (data : DataFrame) (j : nat) :
  rows data = [] -> count_missing data j = 0%nat /\ pct_code data j = None.
Proof.
  intros Hrows. unfold pct_code, count_missing, column, len.
  rewrite Hrows. split; reflexivity.
Qed.


Lemma omap_all_some {A} (l : list A) : omap id (map Some l) = l.
Proof. induction l as [|x l IH]; simpl; [reflexivity | now f_equal]. Qed.

Lemma omap_all_none {A} (l : list (option A)) :
  (forall x, In x l -> x = None) -> omap id l = [].
Proof.
  induction l as [|x l IH]; intros Hall; simpl; [reflexivity|].
  rewrite (Hall x) by now left. simpl. apply IH.
  intros y Hy. apply Hall. now right.
Qed.


Section NargSort.
Variable argsort : list Q -> list nat.
Hypothesis Hcontract : argsort_contract argsort.

Lemma argsort_nil : argsort [] = [].
Proof. apply Permutation_nil. symmetry. apply (proj1 Hcontract []). Qed.

Lemma nargsort_all_nan (items : list stat) :
  (forall x, In x items -> x = None) ->
  nargsort_descending argsort items = seq 0 (length items).
Proof.
  intros Hnan. unfold nargsort_descending.
  rewrite omap_all_none by assumption. simpl. rewrite argsort_nil. simpl.
  rewrite filter_all.
  - apply map_fst_combine_eq. now rewrite length_seq.
  - intros [i x] Hix. apply in_combine_r in Hix. simpl.
    now rewrite (Hnan x Hix).
Qed.

Lemma nargsort_all_some (qs : list Q) :
  nargsort_descending argsort (map Some qs) =
  rev (map (fun k => nth k (rev (seq 0 (length qs))) 0%nat)
           (argsort (rev qs))).
Proof.
  unfold nargsort_descending. rewrite omap_all_some, length_map.
  assert (Hsome : forall ix, In ix (combine (seq 0 (length qs)) (map Some qs))
                             -> isnan (snd ix) = false).
  { intros [i x] Hix. apply in_combine_r in Hix.
    apply in_map_iff in Hix. destruct Hix as [q [<- _]]. reflexivity. }
  rewrite filter_all, filter_none.
  - rewrite app_nil_r, map_fst_combine_eq; [reflexivity|].
    now rewrite length_seq, length_map.
  - exact Hsome.
  - intros ix Hix. apply negb_true_iff. now apply Hsome.
Qed.


Lemma nargsort_perm (qs : list Q) :
  Permutation (nargsort_descending argsort (map Some qs))
              (seq 0 (length qs)).
Proof.
  rewrite nargsort_all_some.
  set (flipped := rev (seq 0 (length qs))).
  assert (Hlen : length (rev qs) = length flipped).
  { unfold flipped. now rewrite !length_rev, length_seq. }
  transitivity (map (fun k => nth k flipped 0%nat) (argsort (rev qs))).
  { symmetry. apply Permutation_rev. }
  transitivity (map (fun k => nth k flipped 0%nat) (seq 0 (length flipped))).
  { rewrite <- Hlen. apply Permutation_map, (proj1 Hcontract). }
  rewrite map_nth_all. symmetry. apply Permutation_rev.
Qed.



End NargSort.


Lemma pct_missing_unsorted (data : DataFrame) :
  (0 < len data)%nat ->
  map pct_missing (missing_stats_unsorted data) =
  map Some (map (pct_value data) (seq 0 (length (columns data)))).
Proof.
  intros Hlen. rewrite missing_stats_unsorted_spec, !map_map.
  apply map_ext. intros j. simpl. now apply pct_code_some.
Qed.

Lemma feature_unsorted (data : DataFrame) :
  map feature (missing_stats_unsorted data) = columns data.
Proof.
  rewrite missing_stats_unsorted_spec, map_map. simpl.
  apply map_nth_all.
Qed.

Lemma missing_stats_zero_rows (data : DataFrame) :
  rows data = [] ->
  missing_stats_unsorted data = map nan_stat (columns data).
Proof.
  intros Hrows. rewrite missing_stats_unsorted_spec.
  rewrite <- (map_nth_seq nan_stat (columns data) "" 0).
  apply map_ext. intros j.
  destruct (pct_code_zero_rows data j Hrows) as [-> ->].
  now rewrite Nat.sub_0_r.
Qed.

Section MissingPercentage.
Variable argsort : list Q -> list nat.
Hypothesis Hcontract : argsort_contract argsort.

(** C9.  On a data set without rows the division is by zero: the
    function returns one row per column, in column order, each with no
    missing value counted and a [pct_missing] that is NaN, not 0. *)
Theorem calculate_missing_percentage_zero_rows (data : DataFrame) :
  rows data = [] ->
  calculate_missing_percentage argsort data = map nan_stat (columns data).
Proof.
  intros Hrows. unfold calculate_missing_percentage, sort_values_pct_descending.
  assert (Hnan : forall x,
            In x (map pct_missing (missing_stats_unsorted data)) -> x = None).
  { rewrite (missing_stats_zero_rows data Hrows), map_map.
    intros x Hx. apply in_map_iff in Hx. now destruct Hx as [c [<- _]]. }
  rewrite (nargsort_all_nan argsort Hcontract _ Hnan), length_map.
  unfold take_rows. rewrite map_nth_all.
  now apply missing_stats_zero_rows.
Qed.


End MissingPercentage.

(** ** Two argsorts that meet the library contract *)

Lemma sorted_nodup {A} (R : A -> A -> Prop) (l : list A) :
  StronglySorted R l -> List.NoDup l ->
  StronglySorted (fun x y => R x y /\ x <> y) l.
Proof.
  intros Hs. induction Hs as [|x l Hs IH Hx]; intros Hnd; constructor.
  - apply IH. now inversion Hnd.
  - rewrite List.Forall_forall in *. intros y Hy. split; [now apply Hx|].
    intros ->. now inversion Hnd.
Qed.

Lemma map_snd_combine_eq {A B} (l : list A) (l' : list B) :
  length l = length l' -> map snd (combine l l') = l'.
Proof.
  revert l'. induction l as [|x l IH]; intros [|y l'] Hlen;
    simpl in *; try discriminate; [reflexivity|].
  f_equal. apply IH. lia.
Qed.

Lemma in_combine_seq (xs : list Q) (s : nat) (q : Q) (i : nat) :
  In (q, i) (combine xs (seq s (length xs))) ->
  (s <= i)%nat /\ nth (i - s) xs 0%Q = q.
Proof.
  revert s. induction xs as [|x xs IH]; intros s; simpl; [contradiction|].
  intros [Heq|Hin].
  - inversion Heq; subst. rewrite Nat.sub_diag. split; [lia | reflexivity].
  - apply IH in Hin. destruct Hin as [Hle Hnth]. split; [lia|].
    replace (i - s)%nat with (S (i - S s)) by lia. exact Hnth.
Qed.

Section TieOrder.
Variable tie : nat -> nat -> bool.
Hypothesis tie_trans : forall i j k,
  tie i j = true -> tie j k = true -> tie i k = true.
Hypothesis tie_total : forall i j, tie i j = true \/ tie j i = true.

Lemma lex_le_cases (a b : Q * nat) :
  lex_le tie a b <->
  (fst a < fst b)%Q \/ ((fst a == fst b)%Q /\ tie (snd a) (snd b) = true).
Proof.
  unfold lex_le, lex_leb.
  destruct (Qcompare_spec (fst a) (fst b)) as [Heq|Hlt|Hgt]; simpl; split.
  - intros Ht. right. split; [exact Heq | now apply Is_true_true].
  - intros [Hlt|[_ Ht]]; [lra | now apply Is_true_true].
  - intros _. now left.
  - intros _. exact I.
  - intros [].
  - intros [Hlt|[Heq _]]; lra.
Qed.

Lemma lex_le_trans : Transitive (lex_le tie).
Proof.
  intros a b c. rewrite !lex_le_cases.
  intros [Hab|[Hab Tab]] [Hbc|[Hbc Tbc]].
  - left. lra.
  - left. lra.
  - left. lra.
  - right. split; [lra | eauto].
Qed.

Lemma lex_le_total : Total (lex_le tie).
Proof.
  intros a b. rewrite !lex_le_cases.
  destruct (Qcompare_spec (fst a) (fst b)) as [Heq|Hlt|Hgt].
  - destruct (tie_total (snd a) (snd b)) as [Ht|Ht].
    + left. right. now split.
    + right. right. split; [now symmetry | exact Ht].
  - left. now left.
  - right. now left.
Qed.

Lemma argsort_with_pairs (xs : list Q) :
  let sorted := merge_sort (lex_le tie) (combine xs (seq 0 (length xs))) in
  StronglySorted (lex_le tie) sorted /\
  Permutation (map snd sorted) (seq 0 (length xs)) /\
  (forall a, In a sorted -> nth (snd a) xs 0%Q = fst a).
Proof.
  intros sorted. split; [|split].
  - apply StronglySorted_merge_sort; [apply lex_le_trans | apply lex_le_total].
  - unfold sorted. rewrite merge_sort_Permutation.
    now rewrite map_snd_combine_eq by now rewrite length_seq.
  - intros [q i] Ha. unfold sorted in Ha.
    apply (Permutation_in _ (merge_sort_Permutation _ _)) in Ha.
    apply in_combine_seq in Ha. destruct Ha as [_ Hnth].
    simpl. now rewrite Nat.sub_0_r in Hnth.
Qed.

Lemma argsort_with_contract : argsort_contract (argsort_with tie).
Proof.
  split; intros xs; unfold argsort_with;
    destruct (argsort_with_pairs xs) as [Hs [Hperm Hkey]].
  - exact Hperm.
  - apply sorted_map. eapply sorted_weaken; [|exact Hs].
    cbv beta. intros a b Ha Hb Hab.
    rewrite (Hkey a Ha), (Hkey b Hb).
    apply lex_le_cases in Hab. destruct Hab as [Hlt|[Heq _]]; lra.
Qed.

Lemma argsort_with_ties (xs : list Q) :
  StronglySorted
    (fun i j => (nth i xs 0 < nth j xs 0)%Q \/
                ((nth i xs 0 == nth j xs 0)%Q /\ tie i j = true /\ i <> j))
    (argsort_with tie xs).
Proof.
  unfold argsort_with.
  destruct (argsort_with_pairs xs) as [Hs [Hperm Hkey]].
  eapply sorted_weaken; [|apply sorted_nodup].
  - cbv beta. intros i j _ _ [Hij Hne]. revert Hij Hne.
    instantiate (1 := fun i j =>
      (nth i xs 0 < nth j xs 0)%Q \/
      ((nth i xs 0 == nth j xs 0)%Q /\ tie i j = true)).
    cbv beta. tauto.
  - apply sorted_map. eapply sorted_weaken; [|exact Hs].
    cbv beta. intros a b Ha Hb Hab.
    rewrite (Hkey a Ha), (Hkey b Hb). now apply lex_le_cases.
  - apply (Permutation_NoDup (Permutation_sym Hperm)), seq_NoDup.
Qed.

End TieOrder.

Lemma stable_argsort_contract : argsort_contract stable_argsort.
Proof.
  apply argsort_with_contract.
  - intros i j k Hij Hjk. apply Nat.leb_le in Hij, Hjk. apply Nat.leb_le. lia.
  - intros i j. rewrite !Nat.leb_le. lia.
Qed.

Lemma stable_argsort_stable : argsort_stable stable_argsort.
Proof.
  intros xs. eapply sorted_weaken; [|apply argsort_with_ties].
  - cbv beta. intros i j _ _ [Hlt|[Heq [Hle Hne]]]; [now left | right].
    apply Nat.leb_le in Hle. split; [exact Heq | lia].
  - intros i j k Hij Hjk. apply Nat.leb_le in Hij, Hjk. apply Nat.leb_le. lia.
  - intros i j. rewrite !Nat.leb_le. lia.
Qed.

Lemma reversing_argsort_contract : argsort_contract reversing_argsort.
Proof.
  apply argsort_with_contract.
  - intros i j k Hij Hjk. apply Nat.leb_le in Hij, Hjk. apply Nat.leb_le. lia.
  - intros i j. rewrite !Nat.leb_le. lia.
Qed.

Lemma calculate_missing_percentage_zero_rows_witness :
  rows zero_row_frame = [] /\
  calculate_missing_percentage stable_argsort zero_row_frame =
  map nan_stat (columns zero_row_frame).
Proof.
  split; [reflexivity|].
  exact (calculate_missing_percentage_zero_rows
           stable_argsort stable_argsort_contract zero_row_frame eq_refl).
Defined.


Example calculate_missing_percentage_example :
  calculate_missing_percentage stable_argsort example_frame =
  [{| feature := "m1"; n_missing := 1; pct_missing := Some (100 # 3)%Q |};
   {| feature := "m2"; n_missing := 1; pct_missing := Some (100 # 3)%Q |}].
Proof. reflexivity. Qed.


(** The order of equal keys is the argsort's: an argsort within the
    library contract that reverses ties returns complete columns in
    reverse order. *)
Example tie_order_follows_argsort :
  argsort_contract reversing_argsort /\
  map feature (calculate_missing_percentage reversing_argsort complete_frame)
  = ["m2"; "m1"].
Proof. split; [apply reversing_argsort_contract | reflexivity]. Qed.

(** ** The state monad *)

Lemma bind_ok {A B} (m : M A) (k : A -> M B) (w w' : World) (b : B) :
  bind m k w = (Ok b, w') ->
  exists a w1, m w = (Ok a, w1) /\ k a w1 = (Ok b, w').
Proof.
  unfold bind. destruct (m w) as [[a|e] w1]; intros Hk.
  - eauto.
  - discriminate.
Qed.

(** An exception ends the computation: what follows does not run. *)
Lemma bind_raise {A B} (m : M A) (k : A -> M B) (w w' : World) (e : exn) :
  m w = (Raise e, w') -> bind m k w = (Raise e, w').
Proof. unfold bind. now intros ->. Qed.

Lemma lift_ok {A} (r : result A) (w w' : World) (a : A) :
  lift r w = (Ok a, w') -> r = Ok a /\ w' = w.
Proof. unfold lift. intros Heq. inversion Heq. auto. Qed.

(** ** Directories *)

Lemma set_fs_same (w : World) : w = set_fs w (fs w).
Proof. now destruct w. Qed.

Lemma extends_refl (w : World) : extends w w.
Proof. repeat split; auto using set_fs_same. Qed.

Lemma extends_log (w w' : World) : extends w w' -> log w' = log w.
Proof. intros (_ & _ & _ & ->). reflexivity. Qed.

Lemma extends_trans (w1 w2 w3 : World) :
  extends w1 w2 -> extends w2 w3 -> extends w1 w3.
Proof.
  intros (Hd1 & Hf1 & Hr1 & Hw1) (Hd2 & Hf2 & Hr2 & Hw2).
  repeat split; try congruence.
  - now transitivity (dirs (fs w2)).
  - rewrite Hw2 at 1. rewrite Hw1. reflexivity.
Qed.

Lemma is_dir_extends (w w' : World) (p : path) :
  extends w w' -> is_dir (fs w) p = true -> is_dir (fs w') p = true.
Proof.
  intros (Hd & _). unfold is_dir. rewrite !orb_true_iff, !bool_decide_eq_true.
  intros [Hroot|Hin]; [now left | right; set_solver].
Qed.

Lemma os_mkdir_ok (p : path) (f f' : FS) :
  os_mkdir p f = Ok f' ->
  f' = {| dirs := {[p]} ∪ dirs f; files := files f; readonly := readonly f |}
  /\ is_dir f (parent p) = true.
Proof.
  unfold os_mkdir.
  destruct (is_dir f p || is_file f p); [discriminate|].
  destruct (existsb (is_file f) (ancestors p)); [discriminate|].
  destruct (is_dir f (parent p)); simpl; [|discriminate].
  destruct (bool_decide (parent p ∈ readonly f)); [discriminate|].
  intros Heq. inversion Heq. auto.
Qed.

Lemma os_mkdir_existing (p : path) (f : FS) :
  is_dir f p = true -> os_mkdir p f = Raise (FileExistsError p).
Proof. unfold os_mkdir. now intros ->. Qed.

Lemma creates_nothing (p : path) (w : World) (r : result unit) :
  (is_ok r = true -> is_dir (fs w) p = true) -> creates p w w r.
Proof.
  intros Hr. split; [apply extends_refl|]. split; [auto | exact Hr].
Qed.

Lemma creates_then (p q : path) (w w1 w2 : World) (r1 r2 : result unit) :
  creates q w w1 r1 -> creates p w1 w2 r2 -> creates p w w2 r2.
Proof.
  intros (Hext1 & Hcl1 & _) (Hext2 & Hcl2 & Hdir).
  split; [apply (extends_trans _ _ _ Hext1 Hext2)|].
  split; [auto | exact Hdir].
Qed.

Lemma mkdir_created (p : path) (w w' : World) (r : result unit) (f' : FS) :
  os_mkdir p (fs w) = Ok f' -> (Ok tt, set_fs w f') = (r, w') ->
  creates p w w' r.
Proof.
  intros Hmk Heq. apply os_mkdir_ok in Hmk. destruct Hmk as [-> Hparent].
  inversion Heq; subst. clear Heq.
  assert (Hext : extends w (set_fs w
            {| dirs := {[p]} ∪ dirs (fs w); files := files (fs w);
               readonly := readonly (fs w) |})).
  { repeat split; simpl; try reflexivity. set_solver. }
  split; [exact Hext|]. split.
  - intros Hclosed q Hq. apply (is_dir_extends _ _ _ Hext).
    simpl in Hq. apply elem_of_union in Hq. destruct Hq as [Hq|Hq].
    + apply elem_of_singleton in Hq. now subst.
    + now apply Hclosed.
  - intros _. unfold is_dir. simpl. rewrite orb_true_iff, bool_decide_eq_true.
    right. set_solver.
Qed.

Lemma mkdir_raised (p : path) (w w' : World) (r : result unit) (e : exn) :
  (Raise e, w) = (r, w') -> creates p w w' r.
Proof.
  intros Heq. inversion Heq; subst. apply creates_nothing. discriminate.
Qed.

Lemma mkdir_fallback (p : path) (w w' : World) (r : result unit) (e : exn) :
  (if is_dir (fs w) p then (Ok tt, w) else (Raise e, w)) = (r, w') ->
  creates p w w' r.
Proof.
  destruct (is_dir (fs w) p) eqn:Hthere; intros Heq.
  - inversion Heq; subst. now apply creates_nothing.
  - exact (mkdir_raised p w w' r e Heq).
Qed.

Lemma mkdir_exist_ok_spec (p : path) (w w' : World) (r : result unit) :
  mkdir_exist_ok p w = (r, w') -> creates p w w' r.
Proof.
  unfold mkdir_exist_ok.
  destruct (os_mkdir p (fs w)) as [f'|e] eqn:Hmk.
  - now apply mkdir_created.
  - destruct e; first [apply mkdir_fallback | apply mkdir_raised].
Qed.

Lemma mkdir_parents_spec (n : nat) (p : path) (w w' : World)
    (r : result unit) :
  mkdir_parents n p w = (r, w') -> creates p w w' r.
Proof.
  revert p w w' r. induction n as [|n IH]; intros p w w' r; simpl;
    (destruct (os_mkdir p (fs w)) as [f'|e] eqn:Hmk;
      [now apply mkdir_created|]).
  - destruct e; first [apply mkdir_fallback | apply mkdir_raised].
  - destruct e; try apply mkdir_fallback.
    destruct (bool_decide (parent p = p)); [apply mkdir_raised|].
    unfold bind.
    destruct (mkdir_parents n (parent p) w) as [[[]|e] w1] eqn:Hpar;
      apply IH in Hpar.
    + intros Hleaf. apply mkdir_exist_ok_spec in Hleaf.
      eapply creates_then; eassumption.
    + intros Heq. inversion Heq; subst.
      destruct Hpar as (Hext & Hcl & _).
      split; [exact Hext|]. split; [exact Hcl|].
      intros Habs. discriminate Habs.
Qed.

(** A directory that is already there is not an error, and nothing changes. *)
Lemma mkdir_parents_existing (n : nat) (p : path) (w : World) :
  is_dir (fs w) p = true -> mkdir_parents n p w = (Ok tt, w).
Proof.
  intros Hdir. destruct n; simpl;
    now rewrite (os_mkdir_existing p (fs w) Hdir), Hdir.
Qed.

Lemma parent_length (p : path) :
  is_root p = false -> S (length (parent p)) = length p.
Proof.
  unfold parent. intros Hroot. rewrite Hroot.
  destruct p as [|x q _] using rev_ind; [discriminate|].
  now rewrite removelast_last, length_app, Nat.add_1_r.
Qed.

Lemma parent_fixed (p : path) :
  bool_decide (parent p = p) = is_root p.
Proof.
  destruct (is_root p) eqn:Hroot.
  - apply bool_decide_eq_true. unfold parent. now rewrite Hroot.
  - apply bool_decide_eq_false. intros Heq.
    apply parent_length in Hroot. rewrite Heq in Hroot. lia.
Qed.

(** The bound on the recursion is never what stops it: any bound of at
    least the number of parts gives the same run. *)
Lemma mkdir_parents_fuel (n : nat) (p : path) (w : World) :
  (length p <= n)%nat ->
  mkdir_parents n p w = mkdir_parents (length p) p w.
Proof.
  revert p w. induction n as [|n IH]; intros p w Hlen.
  - now replace (length p) with 0%nat by lia.
  - destruct (Nat.eq_dec (length p) (S n)) as [->|Hne]; [reflexivity|].
    destruct (is_root p) eqn:Hroot.
    + destruct (length p); simpl;
        destruct (os_mkdir p (fs w)) as [f'|[]]; try reflexivity;
        now rewrite parent_fixed, Hroot.
    + pose proof (parent_length p Hroot) as Hparent.
      destruct (length p) as [|k] eqn:Hk; [discriminate|].
      simpl. destruct (os_mkdir p (fs w)) as [f'|[]]; try reflexivity.
      rewrite parent_fixed, Hroot. unfold bind.
      rewrite (IH (parent p) w) by lia.
      now replace (length (parent p)) with k by lia.
Qed.

(** ** create_directories *)

Lemma make_directory_spec (entry : string * string) (w w' : World)
    (r : result unit) :
  make_directory entry w = (r, w') -> creates (Path (snd entry)) w w' r.
Proof. destruct entry as [name value]. apply mkdir_parents_spec. Qed.

Lemma for_each_mkdir_spec (paths : dict string) (w w' : World)
    (r : result unit) :
  for_each paths make_directory w = (r, w') ->
  extends w w' /\
  (parents_closed (fs w) -> parents_closed (fs w')) /\
  (is_ok r = true ->
   forall name value, In (name, value) paths ->
     is_dir (fs w') (Path value) = true).
Proof.
  revert w. induction paths as [|entry paths IH]; intros w; simpl.
  - intros Heq. inversion Heq; subst.
    split; [apply extends_refl|]. split; [auto|]. intros _ name value [].
  - unfold bind.
    destruct (make_directory entry w) as [[[]|e] w1] eqn:Hhead;
      apply make_directory_spec in Hhead;
      destruct Hhead as (Hext1 & Hcl1 & Hdir1).
    + intros Hrest. apply IH in Hrest.
      destruct Hrest as (Hext2 & Hcl2 & Hdirs).
      split; [eapply extends_trans; eassumption|]. split; [auto|].
      intros Hok name value [->|Hin].
      * apply (is_dir_extends _ _ _ Hext2). now apply Hdir1.
      * now apply (Hdirs Hok name value).
    + intros Heq. inversion Heq; subst.
      split; [exact Hext1|]. split; [exact Hcl1|].
      intros Habs. discriminate Habs.
Qed.

Lemma for_each_mkdir_existing (paths : dict string) (w : World) :
  (forall name value, In (name, value) paths ->
     is_dir (fs w) (Path value) = true) ->
  for_each paths make_directory w = (Ok tt, w).
Proof.
  induction paths as [|[name value] paths IH]; intros Hdirs; simpl.
  - reflexivity.
  - unfold bind, Path_mkdir.
    rewrite mkdir_parents_existing by (apply (Hdirs name); now left).
    apply IH. intros name' value' Hin. apply (Hdirs name'). now right.
Qed.

Lemma create_directories_ok (config : Config) (w w1 : World) :
  create_directories config w = (Ok tt, w1) ->
  exists paths, cfg_paths config = Some paths /\
                for_each paths make_directory w = (Ok tt, w1).
Proof.
  unfold create_directories. intros Hrun.
  apply bind_ok in Hrun. destruct Hrun as (paths & w0 & Hlift & Hloop).
  apply lift_ok in Hlift. destruct Hlift as [Hfield ->].
  exists paths. split; [|exact Hloop].
  destruct (cfg_paths config); simpl in Hfield; congruence.
Qed.

Lemma create_directories_again (config : Config) (w w1 : World) :
  create_directories config w = (Ok tt, w1) ->
  create_directories config w1 = (Ok tt, w1).
Proof.
  intros Hrun. apply create_directories_ok in Hrun.
  destruct Hrun as (paths & Hpaths & Hloop).
  unfold create_directories, bind, lift. rewrite Hpaths. simpl.
  apply for_each_mkdir_existing.
  apply for_each_mkdir_spec in Hloop. now apply Hloop.
Qed.

(** Two calls in succession behave as one, whatever the first one did. *)
Lemma create_directories_twice (config : Config) (w : World) :
  (let! _ := create_directories config in create_directories config) w =
  create_directories config w.
Proof.
  unfold bind at 1.
  destruct (create_directories config w) as [[[]|e] w1] eqn:Hrun.
  - now apply create_directories_again in Hrun.
  - reflexivity.
Qed.

Lemma ancestors_snoc (q : path) (x : string) :
  ancestors (q ++ [x]) = ancestors q ++ [q].
Proof.
  induction q as [|y q IH]; simpl; [reflexivity|].
  now rewrite IH, map_app.
Qed.

Lemma ancestors_are_directories (f : FS) (p : path) :
  parents_closed f -> is_dir f p = true ->
  forall a, In a (ancestors p) -> is_dir f a = true.
Proof.
  intros Hclosed. induction p as [|x q IH] using rev_ind; intros Hdir a Ha.
  - destruct Ha.
  - rewrite ancestors_snoc in Ha. apply in_app_or in Ha.
    assert (Hq : is_dir f q = true).
    { unfold is_dir in Hdir. apply orb_true_iff in Hdir.
      destruct Hdir as [Hroot|Hin].
      - destruct q as [|y [|z q]]; simpl in Hroot; try discriminate;
          reflexivity.
      - apply bool_decide_eq_true in Hin. apply Hclosed in Hin.
        unfold parent in Hin.
        destruct (is_root (q ++ [x])) eqn:Hroot.
        + destruct q as [|y [|z q]]; simpl in Hroot; try discriminate;
            reflexivity.
        + now rewrite removelast_last in Hin. }
    destruct Ha as [Ha|[<-|[]]]; [now apply IH | exact Hq].
Qed.

(** C7.  After a call of [create_directories] that returned, a second
    call returns as well and leaves the world, and so the set of
    directories, as the first call left it; every entry of [paths] is then
    a directory, together with all its ancestors when every directory of
    the initial file system lay in a directory; and creating a directory
    that is already there is no error and changes nothing. *)
Theorem create_directories_idempotent (config : Config) (w w1 : World) :
  create_directories config w = (Ok tt, w1) ->
  create_directories config w1 = (Ok tt, w1) /\
  (forall w2, create_directories config w1 = (Ok tt, w2) ->
     dirs (fs w2) = dirs (fs w1)) /\
  (forall paths name value,
     cfg_paths config = Some paths -> In (name, value) paths ->
     is_dir (fs w1) (Path value) = true /\
     (parents_closed (fs w) ->
      forall a, In a (ancestors (Path value)) -> is_dir (fs w1) a = true)) /\
  (forall p w0, is_dir (fs w0) p = true -> Path_mkdir p w0 = (Ok tt, w0)).
Proof.
  intros Hrun.
  pose proof (create_directories_again config w w1 Hrun) as Hagain.
  split; [exact Hagain|]. split; [|split].
  - intros w2 Hsecond. rewrite Hagain in Hsecond. now inversion Hsecond.
  - intros paths name value Hpaths Hin.
    apply create_directories_ok in Hrun.
    destruct Hrun as (paths' & Hpaths' & Hloop).
    assert (paths' = paths) by congruence. subst paths'.
    apply for_each_mkdir_spec in Hloop.
    destruct Hloop as (_ & Hclosed & Hdirs).
    assert (Hdir : is_dir (fs w1) (Path value) = true)
      by now apply (Hdirs eq_refl name value).
    split; [exact Hdir|].
    intros Hclosed0. apply ancestors_are_directories; auto.
  - intros p w0. apply mkdir_parents_existing.
Qed.

Lemma create_directories_idempotent_witness :
  let w1 := snd (create_directories example_config example_world) in
  create_directories example_config example_world = (Ok tt, w1) /\
  create_directories example_config w1 = (Ok tt, w1) /\
  (forall w2, create_directories example_config w1 = (Ok tt, w2) ->
     dirs (fs w2) = dirs (fs w1)) /\
  (forall paths name value,
     cfg_paths example_config = Some paths -> In (name, value) paths ->
     is_dir (fs w1) (Path value) = true /\
     (parents_closed (fs example_world) ->
      forall a, In a (ancestors (Path value)) -> is_dir (fs w1) a = true)) /\
  (forall p w0, is_dir (fs w0) p = true -> Path_mkdir p w0 = (Ok tt, w0)).
Proof.
  intros w1.
  assert (Hrun : create_directories example_config example_world = (Ok tt, w1))
    by (vm_compute; reflexivity).
  split; [exact Hrun|].
  exact (create_directories_idempotent example_config example_world w1 Hrun).
Defined.

(** From an empty file system the nested entries are created with their
    parents. *)
Example create_directories_example :
  let w1 := snd (create_directories example_config example_world) in
  map (is_dir (fs w1))
      [["out"]; ["out"; "results"]; ["/"; "var"]; ["/"; "var"; "log"];
       ["/"; "var"; "log"; "run"]; ["tmp"]] =
  [true; true; true; true; true; false].
Proof. vm_compute. reflexivity. Qed.

(** ** save_results *)

Lemma startswith_cons (b a : ascii) (s p : string) :
  startswith (String b s) (String a p) = Ascii.eqb a b && startswith s p.
Proof. reflexivity. Qed.

(** [startswith] and [endswith] say what their names say. *)
Lemma append_cons (x : ascii) (a b : string) :
  String x a +:+ b = String x (a +:+ b).
Proof. reflexivity. Qed.

Lemma append_assoc (a b c : string) : (a +:+ b) +:+ c = a +:+ (b +:+ c).
Proof.
  induction a as [|x a IH]; [reflexivity|].
  now rewrite !append_cons, IH.
Qed.

Lemma append_empty_r (a : string) : a +:+ "" = a.
Proof.
  induction a as [|x a IH]; [reflexivity|].
  now rewrite append_cons, IH.
Qed.

Lemma startswith_spec (s p : string) :
  startswith s p = true <-> exists rest, s = p +:+ rest.
Proof.
  revert s. induction p as [|a p IH]; intros s.
  - split; [intros _; now exists s | reflexivity].
  - destruct s as [|b s].
    + split; [discriminate | intros [rest Hrest]; discriminate].
    + rewrite startswith_cons, andb_true_iff, Ascii.eqb_eq, IH. split.
      * intros [-> [rest ->]]. now exists rest.
      * intros [rest Hrest]. rewrite append_cons in Hrest.
        inversion Hrest; subst. split; [reflexivity | now exists rest].
Qed.

Lemma rev_onto_spec (s acc : string) :
  rev_onto s acc = string_rev s +:+ acc.
Proof.
  unfold string_rev. revert acc.
  induction s as [|c s IH]; intros acc; [reflexivity|].
  cbn [rev_onto].
  rewrite (IH (String c acc)), (IH (String c "")), append_assoc.
  reflexivity.
Qed.

Lemma string_rev_cons (c : ascii) (s : string) :
  string_rev (String c s) = string_rev s +:+ String c "".
Proof. unfold string_rev at 1. cbn [rev_onto]. apply rev_onto_spec. Qed.

Lemma string_rev_append (a b : string) :
  string_rev (a +:+ b) = string_rev b +:+ string_rev a.
Proof.
  induction a as [|c a IH].
  - change ("" +:+ b) with b. change (string_rev "") with "".
    now rewrite append_empty_r.
  - now rewrite append_cons, !string_rev_cons, IH, append_assoc.
Qed.

Lemma string_rev_involutive (s : string) : string_rev (string_rev s) = s.
Proof.
  induction s as [|c s IH]; [reflexivity|].
  now rewrite string_rev_cons, string_rev_append, IH.
Qed.

Lemma endswith_spec (s suffix : string) :
  endswith s suffix = true <-> exists start, s = start +:+ suffix.
Proof.
  unfold endswith. rewrite startswith_spec. split.
  - intros [rest Hrest]. exists (string_rev rest).
    rewrite <- (string_rev_involutive s), Hrest, string_rev_append.
    now rewrite string_rev_involutive.
  - intros [start ->]. exists (string_rev start). apply string_rev_append.
Qed.

Lemma xlsx_is_not_csv (s : string) :
  endswith s ".xlsx" = true -> endswith s ".csv" = false.
Proof.
  unfold endswith.
  change (string_rev ".xlsx") with "xslx.".
  change (string_rev ".csv") with "vsc.".
  generalize (string_rev s). intros [|c t].
  - intros Habs. discriminate Habs.
  - rewrite !startswith_cons.
    destruct (Ascii.eqb_spec "x" c) as [<-|_].
    + intros _. reflexivity.
    + intros Habs. discriminate Habs.
Qed.

Lemma os_write_ok (p : path) (c : content) (f f' : FS) :
  os_write p c f = Ok f' ->
  files f' !! p = Some c /\ dirs f' = dirs f.
Proof.
  unfold os_write.
  destruct (is_dir f p); [discriminate|].
  destruct (existsb (is_file f) (ancestors p)); [discriminate|].
  destruct (is_dir f (parent p)); simpl; [|discriminate].
  destruct (negb (is_file f p) && bool_decide (parent p ∈ readonly f));
    [discriminate|].
  intros Heq. inversion Heq; subst. simpl.
  split; [apply lookup_insert_eq | reflexivity].
Qed.

Lemma syscall_ok (op : FS -> result FS) (w w' : World) :
  syscall op w = (Ok tt, w') ->
  exists f', op (fs w) = Ok f' /\ w' = set_fs w f'.
Proof.
  unfold syscall. destruct (op (fs w)) as [f'|e]; intros Heq;
    inversion Heq; eauto.
Qed.

Lemma write_ok (p : path) (c : content) (w w' : World) :
  syscall (os_write p c) w = (Ok tt, w') ->
  files (fs w') !! p = Some c /\ dirs (fs w') = dirs (fs w) /\
  log w' = log w.
Proof.
  intros Hsys. apply syscall_ok in Hsys. destruct Hsys as (f' & Hw & ->).
  apply os_write_ok in Hw. destruct Hw as [Hfile Hdirs]. simpl. auto.
Qed.

Lemma save_results_ok (data : artifact) (filename : string) (config : Config)
    (subdirectory : string) (w w' : World) :
  save_results data filename config subdirectory w = (Ok tt, w') ->
  exists paths dir,
    cfg_paths config = Some paths /\
    lookup_key paths subdirectory = Some dir /\
    is_dir (fs w') (Path dir) = true /\
    (forall c, written data filename = Some c ->
       files (fs w') !! target data (joinpath (Path dir) filename) = Some c) /\
    log w' = log w ++ ["Results saved to "
                       +:+ str_path (joinpath (Path dir) filename)].
Proof.
  unfold save_results. intros Hrun.
  apply bind_ok in Hrun. destruct Hrun as (paths & w0 & Hpaths & Hrun).
  apply lift_ok in Hpaths. destruct Hpaths as [Hpaths ->].
  apply bind_ok in Hrun. destruct Hrun as (dir & w0 & Hdir & Hrun).
  apply lift_ok in Hdir. destruct Hdir as [Hdir ->].
  apply bind_ok in Hrun. destruct Hrun as ([] & w1 & Hmk & Hrun).
  apply bind_ok in Hrun. destruct Hrun as ([] & w2 & Hwrite & Hlog).
  apply mkdir_parents_spec in Hmk. destruct Hmk as (Hlog1 & _ & Hmk).
  apply extends_log in Hlog1.
  specialize (Hmk eq_refl).
  unfold logging_info in Hlog. inversion Hlog; subst w'; clear Hlog. simpl.
  exists paths, dir.
  split. { destruct (cfg_paths config); simpl in Hpaths; congruence. }
  split. { unfold getitem in Hdir.
           destruct (lookup_key paths subdirectory); congruence. }
  assert (Hw2 : dirs (fs w2) = dirs (fs w1) /\ log w2 = log w1 /\
                forall c, written data filename = Some c ->
                  files (fs w2) !! target data (joinpath (Path dir) filename)
                  = Some c).
  { destruct data as [df|a|]; simpl in *.
    - destruct (endswith filename ".csv");
        [|destruct (endswith filename ".xlsx")];
        apply write_ok in Hwrite; destruct Hwrite as (Hfile & Hd & Hl);
        (split; [exact Hd|]); (split; [exact Hl|]);
        intros c Hc; inversion Hc; subst; exact Hfile.
    - apply write_ok in Hwrite. destruct Hwrite as (Hfile & Hd & Hl).
      split; [exact Hd|]. split; [exact Hl|].
      intros c Hc. inversion Hc; subst. exact Hfile.
    - inversion Hwrite; subst.
      split; [reflexivity|]. split; [reflexivity|]. intros c Hc. discriminate. }
  destruct Hw2 as (Hd2 & Hl2 & Hfile).
  split. { unfold is_dir in *. now rewrite Hd2. }
  split; [exact Hfile|]. now rewrite Hl2, Hlog1.
Qed.

Lemma written_encoding (data : artifact) (filename : string) (c : content) :
  written data filename = Some c ->
  spec_encoding data filename = encoding_of c /\ payload c = Some data.
Proof.
  destruct data as [df|a|]; simpl; intros Hc; inversion Hc; subst.
  - destruct (endswith filename ".csv");
      [|destruct (endswith filename ".xlsx")]; split; reflexivity.
  - split; reflexivity.
Qed.

(** C4.  When [save_results] returns, the file it wrote holds the
    artifact in the encoding the file name selects: CSV text for a data
    frame and a name ending in [.csv], an Excel workbook for one ending in
    [.xlsx], a pickle snapshot for any other name, and the NumPy format
    for an array whatever the name (NumPy then appends [.npy] to a name
    that lacks it). *)
Theorem save_results_encoding (data : artifact) (filename : string)
    (config : Config) (subdirectory : string) (w w' : World) :
  save_results data filename config subdirectory w = (Ok tt, w') ->
  exists paths dir,
    cfg_paths config = Some paths /\
    lookup_key paths subdirectory = Some dir /\
    (forall df, data = Frame df -> endswith filename ".csv" = true ->
       files (fs w') !! joinpath (Path dir) filename = Some (CsvText df)) /\
    (forall df, data = Frame df -> endswith filename ".xlsx" = true ->
       files (fs w') !! joinpath (Path dir) filename
       = Some (ExcelWorkbook df)) /\
    (forall df, data = Frame df ->
       endswith filename ".csv" = false ->
       endswith filename ".xlsx" = false ->
       files (fs w') !! joinpath (Path dir) filename
       = Some (PickleSnapshot df)) /\
    (forall a, data = Array a ->
       files (fs w') !! npy_target (joinpath (Path dir) filename)
       = Some (NpyArray a)) /\
    (forall enc, spec_encoding data filename = Some enc ->
       exists c,
         files (fs w') !! target data (joinpath (Path dir) filename) = Some c
         /\ encoding_of c = Some enc /\ payload c = Some data).
Proof.
  intros Hrun. apply save_results_ok in Hrun.
  destruct Hrun as (paths & dir & Hpaths & Hdir & _ & Hfile & _).
  exists paths, dir. split; [exact Hpaths|]. split; [exact Hdir|].
  split; [|split; [|split; [|split]]].
  - intros df -> Hcsv. apply (Hfile (CsvText df)). simpl. now rewrite Hcsv.
  - intros df -> Hxlsx. apply (Hfile (ExcelWorkbook df)). simpl.
    now rewrite (xlsx_is_not_csv filename Hxlsx), Hxlsx.
  - intros df -> Hcsv Hxlsx. apply (Hfile (PickleSnapshot df)). simpl.
    now rewrite Hcsv, Hxlsx.
  - intros a ->. apply (Hfile (NpyArray a)). reflexivity.
  - intros enc Henc.
    destruct (written data filename) as [c|] eqn:Hc.
    + destruct (written_encoding data filename c Hc) as [Henc' Hpay].
      exists c. split; [now apply Hfile|]. split; [congruence | exact Hpay].
    + destruct data; simpl in Hc, Henc; discriminate.
Qed.

Lemma save_results_encoding_witness :
  let w' := snd (save_results (Frame example_frame) "stats.csv"
                              example_config "results" example_world) in
  save_results (Frame example_frame) "stats.csv" example_config "results"
               example_world = (Ok tt, w') /\
  files (fs w') !! ["out"; "results"; "stats.csv"]
  = Some (CsvText example_frame).
Proof.
  intros w'.
  assert (Hrun : save_results (Frame example_frame) "stats.csv"
                   example_config "results" example_world = (Ok tt, w'))
    by (vm_compute; reflexivity).
  split; [exact Hrun|].
  destruct (save_results_encoding _ _ _ _ _ _ Hrun)
    as (paths & dir & Hpaths & Hdir & Hcsv & _).
  inversion Hpaths; subst paths. inversion Hdir; subst dir.
  exact (Hcsv example_frame eq_refl eq_refl).
Defined.

Example save_results_examples :
  let saved data filename :=
    map_to_list (files (fs (snd (save_results data filename example_config
                                              "results" example_world)))) in
  let a := {| nd_shape := [2]; nd_data := [1%float; 2%float] |} in
  saved (Frame example_frame) "stats.xlsx"
    = [(["out"; "results"; "stats.xlsx"], ExcelWorkbook example_frame)] /\
  saved (Frame example_frame) "stats.CSV"
    = [(["out"; "results"; "stats.CSV"], PickleSnapshot example_frame)] /\
  saved (Frame example_frame) "stats"
    = [(["out"; "results"; "stats"], PickleSnapshot example_frame)] /\
  saved (Array a) "values.csv"
    = [(["out"; "results"; "values.csv.npy"], NpyArray a)] /\
  saved (Array a) "values.npy"
    = [(["out"; "results"; "values.npy"], NpyArray a)].
Proof. vm_compute. repeat split; reflexivity. Qed.

(** ** Failures are raised or collected *)













(** ** generate_report_summary *)

Lemma metric_lines_loop (metrics : dict float) (summary : list string) :
  fold_left (fun summary nv =>
               summary ++ ["  " +:+ fst nv +:+ ": " +:+ format_4f (snd nv)])
            metrics summary =
  summary ++ map (fun nv => "  " +:+ fst nv +:+ ": " +:+ format_4f (snd nv))
                 metrics.
Proof.
  revert summary. induction metrics as [|nv metrics IH]; intros summary; simpl.
  - now rewrite app_nil_r.
  - now rewrite IH, <- app_assoc.
Qed.

Lemma method_blocks_loop (results : dict (dict float))
    (summary : list string) :
  fold_left (fun summary mm =>
      let summary := summary ++ [nl +:+ upper (fst mm) +:+ " Results:"] in
      fold_left (fun summary nv =>
        summary ++ ["  " +:+ fst nv +:+ ": " +:+ format_4f (snd nv)])
        (items (snd mm)) summary)
    results summary =
  summary ++ flat_map method_block results.
Proof.
  revert summary. induction results as [|mm results IH]; intros summary; simpl.
  - now rewrite app_nil_r.
  - rewrite metric_lines_loop, IH. unfold method_block, items.
    now rewrite <- !app_assoc.
Qed.

(** Rounding to four decimals: the printed integer of ten-thousandths is
    nearest to the exact value, and even when two are equally near. *)
Lemma scaled_round_nearest (m : positive) (e : Z) :
  let n := scaled_round m e in
  ((0 <= e)%Z -> n = (Z.pos m * 10000 * 2 ^ e)%Z) /\
  ((e < 0)%Z ->
   let d := (2 ^ (- e))%Z in
   (2 * Z.abs (n * d - Z.pos m * 10000) <= d)%Z /\
   ((2 * Z.abs (n * d - Z.pos m * 10000) = d)%Z -> Z.even n = true)).
Proof.
  unfold scaled_round. split.
  - intros He. apply Z.leb_le in He. now rewrite He.
  - intros He. cbv zeta.
    destruct (0 <=? e)%Z eqn:Hle; [apply Z.leb_le in Hle; lia|].
    assert (Hd : (0 < 2 ^ (- e))%Z) by (apply Z.pow_pos_nonneg; lia).
    set (d := (2 ^ (- e))%Z) in *.
    set (num := (Z.pos m * 10000)%Z).
    pose proof (Z.div_mod num d ltac:(lia)) as Hdm.
    pose proof (Z.mod_pos_bound num d Hd) as Hr.
    set (q := (num / d)%Z) in *. set (r := (num mod d)%Z) in *.
    destruct (2 * r <? d)%Z eqn:Hlt; [apply Z.ltb_lt in Hlt; split; lia|].
    apply Z.ltb_ge in Hlt.
    destruct (d <? 2 * r)%Z eqn:Hgt; [apply Z.ltb_lt in Hgt; split; lia|].
    apply Z.ltb_ge in Hgt.
    destruct (Z.even q) eqn:Heven.
    + split; [lia | auto].
    + split; [lia|]. intros _. rewrite Z.even_add, Heven. reflexivity.
Qed.

(** The four decimals of [fixed4] are the digits of [n mod 10^4]. *)
Lemma fixed4_digits (n : Z) :
  let f := (n mod 10000)%Z in
  let d1 := (f / 1000)%Z in let d2 := (f / 100 mod 10)%Z in
  let d3 := (f / 10 mod 10)%Z in let d4 := (f mod 10)%Z in
  (d1 * 1000 + d2 * 100 + d3 * 10 + d4 = f)%Z /\
  (0 <= d1 < 10)%Z /\ (0 <= d2 < 10)%Z /\ (0 <= d3 < 10)%Z /\ (0 <= d4 < 10)%Z.
Proof.
  cbv zeta. pose proof (Z.mod_pos_bound n 10000 ltac:(lia)) as Hf.
  set (f := (n mod 10000)%Z) in *.
  pose proof (Z.div_mod f 10 ltac:(lia)).
  pose proof (Z.div_mod (f / 10) 10 ltac:(lia)).
  pose proof (Z.div_mod (f / 100) 10 ltac:(lia)).
  pose proof (Z.mod_pos_bound f 10 ltac:(lia)).
  pose proof (Z.mod_pos_bound (f / 10) 10 ltac:(lia)).
  pose proof (Z.mod_pos_bound (f / 100) 10 ltac:(lia)).
  assert ((f / 10 / 10 = f / 100)%Z) by (rewrite Z.div_div by lia; reflexivity).
  assert ((f / 100 / 10 = f / 1000)%Z) by (rewrite Z.div_div by lia; reflexivity).
  assert ((0 <= f / 1000 < 10)%Z).
  { split; [apply Z.div_pos; lia | apply Z.div_lt_upper_bound; lia]. }
  repeat split; lia.
Qed.

Lemma half_unit (n m d : Z) :
  (0 < d)%Z -> (2 * Z.abs (n * d - m * 10000) <= d)%Z ->
  (Qabs (inject_Z n / 10000 - inject_Z m / inject_Z d) <= 1 # 20000)%Q.
Proof.
  intros Hd Hn.
  assert (HD : (0 < inject_Z d)%Q)
    by (change 0%Q with (inject_Z 0); rewrite <- Zlt_Qlt; exact Hd).
  set (t := inject_Z (2 * (n * d - m * 10000))).
  assert (Ht : (- inject_Z d <= t /\ t <= inject_Z d)%Q).
  { unfold t. rewrite <- inject_Z_opp, <- !Zle_Qle. lia. }
  assert (Heq : (inject_Z n / 10000 - inject_Z m / inject_Z d
                 == t / inject_Z d / 20000)%Q).
  { unfold t, Z.sub.
    rewrite inject_Z_mult, inject_Z_plus, inject_Z_opp, !inject_Z_mult.
    change (inject_Z 2) with 2%Q. change (inject_Z 10000) with 10000%Q.
    field. lra. }
  rewrite Heq. apply Qabs_Qle_condition.
  assert (H1 : (- (1) <= t / inject_Z d)%Q).
  { apply Qle_shift_div_l; [exact HD|]. lra. }
  assert (H2 : (t / inject_Z d <= 1)%Q).
  { apply Qle_shift_div_r; [exact HD|]. lra. }
  set (u := (t / inject_Z d)%Q) in *.
  split.
  - apply Qle_shift_div_l; [reflexivity|]. lra.
  - apply Qle_shift_div_r; [reflexivity|]. lra.
Qed.

(** The printed number is within half a ten-thousandth of the value. *)
Lemma scaled_round_error (m : positive) (e : Z) :
  (Qabs (inject_Z (scaled_round m e) / 10000 - magnitude m e)
   <= 1 # 20000)%Q.
Proof.
  destruct (scaled_round_nearest m e) as [Hpos Hneg]. unfold magnitude.
  destruct (Z.le_gt_cases 0 e) as [He|He].
  - rewrite (Hpos He).
    change 2%Q with (inject_Z 2). rewrite <- Zpower_Qpower by assumption.
    rewrite !inject_Z_mult. change (inject_Z 10000) with 10000%Q.
    assert (Hexact : (inject_Z (Z.pos m) * 10000 * inject_Z (2 ^ e) / 10000
                      - inject_Z (Z.pos m) * inject_Z (2 ^ e) == 0)%Q)
      by field.
    rewrite Hexact. discriminate.
  - destruct (Hneg He) as [Hnear _].
    assert (Hd : (0 < 2 ^ (- e))%Z) by (apply Z.pow_pos_nonneg; lia).
    replace e with (- - e)%Z at 2 by lia.
    rewrite Qpower_opp. change 2%Q with (inject_Z 2).
    rewrite <- Zpower_Qpower by lia.
    now apply half_unit.
Qed.

(** C6.  Given the keys the report reads, [generate_report_summary]
    returns the joined lines of the head, then for each method in the
    order of the mapping the header with the upper-cased name followed by
    one line per metric, then the closing border; a metric line is the
    name and the value in [.4f] format, which for a finite binary64 value
    prints the nearest multiple of 0.0001 (ties to even) with four
    decimals. *)
Theorem generate_report_summary_methods (results : dict (dict float))
    (config : Config) (project : ProjectSection) (ds : DatasetSection)
    (name dname : string) (total : Z) (w : World) :
  cfg_project config = Some project -> proj_name project = Some name ->
  cfg_dataset config = Some ds -> ds_name ds = Some dname ->
  ds_total_files ds = Some total ->
  generate_report_summary results config w =
    (Ok (join nl (report_preamble name (clock w) dname total
                  ++ flat_map method_block results
                  ++ [nl +:+ repeat_char "=" 80])), w) /\
  (forall method metrics,
     method_block (method, metrics) =
     (nl +:+ upper method +:+ " Results:")
     :: map (fun nv => "  " +:+ fst nv +:+ ": " +:+ format_4f (snd nv))
            metrics) /\
  (forall value s m e,
     Prim2SF value = S754_finite s m e ->
     format_4f value = fixed4 s (scaled_round m e) /\
     (Qabs (inject_Z (scaled_round m e) / 10000 - magnitude m e)
      <= 1 # 20000)%Q).
Proof.
  intros Hproject Hname Hds Hdname Htotal. split; [|split].
  - unfold generate_report_summary, bind, lift, ret, datetime_now.
    rewrite Hproject. simpl. rewrite Hname. simpl.
    rewrite Hds. simpl. rewrite Hdname. simpl. rewrite Htotal. simpl.
    rewrite method_blocks_loop. unfold report_preamble.
    now rewrite <- !app_assoc.
  - reflexivity.
  - intros value s m e Hsf. split; [|apply scaled_round_error].
    unfold format_4f. now rewrite Hsf.
Qed.

Lemma generate_report_summary_methods_witness :
  fst (generate_report_summary knn_results example_config example_world) =
  Ok (join nl (report_preamble "Test" (clock example_world) "D" 3
               ++ [nl +:+ "KNN Results:"; "  rmse: 0.1235"]
               ++ [nl +:+ repeat_char "=" 80])).
Proof.
  destruct (generate_report_summary_methods knn_results example_config
              {| proj_name := Some "Test" |}
              {| ds_name := Some "D"; ds_total_files := Some 3%Z;
                 ds_samples := Some [("ctl", 2%Z); ("trt", 1%Z)] |}
              "Test" "D" 3 example_world
              eq_refl eq_refl eq_refl eq_refl eq_refl) as [Hrun _].
  rewrite Hrun. vm_compute. reflexivity.
Defined.

(** The report for [{"knn": {"rmse": 0.12345}}], line by line. *)
Example report_lines :
  match fst (generate_report_summary knn_results example_config
                                     example_world) with
  | Ok report => split_on (ascii_of_nat 10) report
  | Raise _ => []
  end =
  [repeat_char "=" 80;
   "METABOLOMICS IMPUTATION ANALYSIS SUMMARY";
   repeat_char "=" 80;
   "";
   "Project: Test";
   "Date: 2024-03-09 07:05:00";
   "";
   "Dataset: D";
   "Total samples: 3";
   "";
   repeat_char "-" 80;
   "";
   "KNN Results:";
   "  rmse: 0.1235";
   "";
   repeat_char "=" 80].
Proof. vm_compute. reflexivity. Qed.

Example format_4f_examples :
  map format_4f [0.12345%float; 2.5%float; (-0.00001)%float; 0.00005%float;
                 0.00015%float; 1e22%float; nan; infinity; neg_infinity] =
  ["0.1235"; "2.5000"; "-0.0000"; "0.0001"; "0.0001";
   "10000000000000000000000.0000"; "nan"; "inf"; "-inf"].
Proof. vm_compute. reflexivity. Qed.

(** The remaining helpers on concrete inputs. *)
Example setup_logging_example :
  let r := setup_logging example_config example_world in
  fst r = Ok ModuleLogger /\
  map fst (map_to_list (files (fs (snd r)))) =
    [["/"; "var"; "log"; "run";
      "metabolomics_imputation_20240309_070500.log"]] /\
  root_handlers (snd r) =
    Some [["/"; "var"; "log"; "run";
           "metabolomics_imputation_20240309_070500.log"]] /\
  log (snd r) = ["Logging initialized"].
Proof. vm_compute. repeat split; reflexivity. Qed.

Example set_random_seed_examples :
  let seeds w := (np_seed w, py_seed w) in
  seeds (snd (set_random_seed (Some 42%Z) example_world))
    = (Some 42%Z, Some 42%Z) /\
  fst (set_random_seed (Some (-1)%Z) example_world)
    = Raise (ValueError "Seed must be between 0 and 2**32 - 1") /\
  set_random_seed None example_world = (Ok tt, example_world).
Proof. vm_compute. repeat split; reflexivity. Qed.

(** [export_session_info] does not create the results directory. *)
Example export_session_info_examples :
  fst (export_session_info example_config None example_world)
    = Raise (FileNotFoundError ["out"; "results"; "session_info.yaml"]) /\
  (let w1 := snd (create_directories example_config example_world) in
   fst (export_session_info example_config None w1) = Ok tt /\
   log (snd (export_session_info example_config None w1))
     = ["Session info saved to out/results/session_info.yaml"]).
Proof. vm_compute. repeat split; reflexivity. Qed.

(** * Further properties of the helpers *)

(** ** Decimal numerals *)

Lemma contains_char_append (c : ascii) (a b : string) :
  contains_char c (a +:+ b) = contains_char c a || contains_char c b.
Proof.
  induction a as [|x a IH]; [reflexivity|].
  rewrite append_cons. cbn [contains_char]. now rewrite IH, orb_assoc.
Qed.

Lemma contains_char_rev (c : ascii) (s : string) :
  contains_char c (string_rev s) = contains_char c s.
Proof.
  induction s as [|x s IH]; [reflexivity|].
  rewrite string_rev_cons, contains_char_append, IH. cbn [contains_char].
  now rewrite orb_false_r, orb_comm.
Qed.

Lemma numeral_without_underscore (d : Decimal.uint) :
  contains_char "_" (NilEmpty.string_of_uint d) = false.
Proof. induction d; cbn [NilEmpty.string_of_uint contains_char]; auto. Qed.

Lemma str_Z_without_underscore (i : nat) :
  contains_char "_" (str_Z (Z.of_nat i)) = false.
Proof.
  unfold str_Z. destruct (Z.of_nat i) as [|p|p] eqn:Hi; [reflexivity| |lia].
  apply numeral_without_underscore.
Qed.

Lemma str_Z_injective (a b : Z) : str_Z a = str_Z b -> a = b.
Proof.
  unfold str_Z. intros Heq. apply DecimalZ.to_int_inj.
  assert (Hsome : Some (Z.to_int a) = Some (Z.to_int b))
    by now rewrite <- !NilEmpty.isi, Heq.
  now inversion Hsome.
Qed.

(** A text is cut in one way only at its last underscore. *)
Lemma cut_at_first_underscore (x x' y y' : string) :
  contains_char "_" x = false -> contains_char "_" x' = false ->
  x +:+ String "_" y = x' +:+ String "_" y' -> x = x' /\ y = y'.
Proof.
  revert x'. induction x as [|c x IH]; intros [|c' x'] Hx Hx' Heq.
  - inversion Heq. auto.
  - rewrite append_cons in Heq. inversion Heq; subst.
    cbn [contains_char] in Hx'. discriminate.
  - rewrite append_cons in Heq. inversion Heq; subst.
    cbn [contains_char] in Hx. discriminate.
  - rewrite !append_cons in Heq. inversion Heq; subst.
    cbn [contains_char] in Hx, Hx'.
    apply orb_false_iff in Hx, Hx'.
    destruct (IH x' (proj2 Hx) (proj2 Hx') H1) as [-> ->]. auto.
Qed.

Lemma cut_at_last_underscore (g g' d d' : string) :
  contains_char "_" d = false -> contains_char "_" d' = false ->
  g +:+ "_" +:+ d = g' +:+ "_" +:+ d' -> g = g' /\ d = d'.
Proof.
  intros Hd Hd' Heq.
  apply (f_equal string_rev) in Heq.
  rewrite !string_rev_append in Heq.
  change (string_rev "_") with "_" in Heq. rewrite !append_assoc in Heq.
  change ("_" +:+ string_rev g) with (String "_" (string_rev g)) in Heq.
  change ("_" +:+ string_rev g') with (String "_" (string_rev g')) in Heq.
  apply cut_at_first_underscore in Heq;
    [|now rewrite contains_char_rev..].
  destruct Heq as [Hrd Hrg].
  apply (f_equal string_rev) in Hrd, Hrg.
  rewrite !string_rev_involutive in Hrd, Hrg. auto.
Qed.

(** ** get_sample_info: what a returned table looks like *)

Lemma spec_sample_info_no_positive (colors : dict string) (samples : dict Z) :
  existsb (fun gc => (0 <? snd gc)%Z) samples = false ->
  spec_sample_info colors samples = [].
Proof.
  induction samples as [|[g c] samples IH]; simpl; [reflexivity|].
  intros Hnone. apply orb_false_iff in Hnone. destruct Hnone as [Hc Hrest].
  apply Z.ltb_ge in Hc. rewrite (IH Hrest), app_nil_r.
  unfold group_rows. now replace (Z.to_nat c) with 0%nat by lia.
Qed.

(** Whenever [get_sample_info] returns, the table is the list of
    [group_rows] of some colour mapping. *)
Lemma get_sample_info_returns (config : Config) (table : list SampleRow) :
  get_sample_info config = Ok table ->
  exists ds samples colors,
    cfg_dataset config = Some ds /\ ds_samples ds = Some samples /\
    table = spec_sample_info colors samples.
Proof.
  unfold get_sample_info. intros Hrun.
  destruct (cfg_dataset config) as [ds|] eqn:Hds; [|discriminate].
  simpl in Hrun.
  destruct (ds_samples ds) as [samples|] eqn:Hsamples; [|discriminate].
  simpl in Hrun. unfold items in Hrun.
  destruct (cfg_visualization config) as [viz|] eqn:Hviz.
  - destruct (viz_colors viz) as [colors|] eqn:Hcolors.
    + rewrite (outer_loop_ok config viz colors Hviz Hcolors) in Hrun.
      inversion Hrun. now exists ds, samples, colors.
    + rewrite (outer_loop_raises config (KeyError "colors")) in Hrun.
      * destruct (existsb _ samples) eqn:Hnone; [discriminate|].
        inversion Hrun. exists ds, samples, [].
        now rewrite spec_sample_info_no_positive.
      * intros g i. unfold sample_row. rewrite Hviz. simpl.
        now rewrite Hcolors.
  - rewrite (outer_loop_raises config (KeyError "visualization")) in Hrun.
    + destruct (existsb _ samples) eqn:Hnone; [discriminate|].
      inversion Hrun. exists ds, samples, [].
      now rewrite spec_sample_info_no_positive.
    + intros g i. unfold sample_row. now rewrite Hviz.
Qed.

Lemma group_rows_ids_nodup (colors : dict string) (g : string) (count : Z) :
  List.NoDup (map sample_id (group_rows colors g count)).
Proof.
  unfold group_rows. rewrite map_map. cbn [sample_id].
  apply Finite.Injective_map_NoDup; [|apply List.seq_NoDup].
  intros i j Heq.
  apply cut_at_last_underscore in Heq;
    [|apply str_Z_without_underscore..].
  destruct Heq as [_ Heq]. apply str_Z_injective in Heq. lia.
Qed.

Lemma spec_sample_info_ids (colors : dict string) (samples : dict Z)
    (id : string) :
  In id (map sample_id (spec_sample_info colors samples)) ->
  exists g i, In g (map fst samples) /\
              id = g +:+ "_" +:+ str_Z (Z.of_nat i).
Proof.
  intros Hin. apply in_map_iff in Hin. destruct Hin as [r [<- Hr]].
  apply in_flat_map in Hr. destruct Hr as [[g c] [Hgc Hr]].
  unfold group_rows in Hr. apply in_map_iff in Hr.
  destruct Hr as [i [<- _]]. exists g, i. split; [|reflexivity].
  apply in_map_iff. now exists (g, c).
Qed.

Lemma spec_sample_info_ids_nodup (colors : dict string) (samples : dict Z) :
  List.NoDup (map fst samples) ->
  List.NoDup (map sample_id (spec_sample_info colors samples)).
Proof.
  induction samples as [|[g c] samples IH]; simpl; intros Hkeys.
  - constructor.
  - inversion Hkeys as [|? ? Hfresh Hrest]; subst.
    rewrite map_app. apply List.NoDup_app.
    + apply group_rows_ids_nodup.
    + apply IH, Hrest.
    + intros id Hhere Hthere.
      assert (Hone : In id (map sample_id (spec_sample_info colors [(g, c)])))
        by (simpl; now rewrite app_nil_r).
      apply spec_sample_info_ids in Hone, Hthere.
      destruct Hone as [g1 [i1 [Hg1 ->]]].
      destruct Hthere as [g2 [i2 [Hg2 Heq]]].
      apply cut_at_last_underscore in Heq;
        [|apply str_Z_without_underscore..].
      destruct Heq as [-> _]. simpl in Hg1.
      destruct Hg1 as [<-|[]]. contradiction.
Qed.

Lemma spec_sample_info_length_clamped (colors : dict string)
    (samples : dict Z) :
  Z.of_nat (length (spec_sample_info colors samples)) =
  sum (map (Z.max 0) (values samples)).
Proof.
  unfold values. induction samples as [|[g c] samples IH]; simpl.
  - reflexivity.
  - rewrite length_app, group_rows_length, sum_cons, Nat2Z.inj_add, IH. lia.
Qed.

(** X1.  Whenever [get_sample_info] returns a table for a configuration
    whose [dataset.samples] has pairwise distinct group names (as the keys
    of a Python dict are), no two rows of the table carry the same
    [sample_id], even when a group name itself contains underscores or
    digits. *)
Theorem get_sample_info_ids_unique (config : Config) (ds : DatasetSection)
    (samples : dict Z) (table : list SampleRow) :
  cfg_dataset config = Some ds ->
  ds_samples ds = Some samples ->
  List.NoDup (map fst samples) ->
  get_sample_info config = Ok table ->
  List.NoDup (map sample_id table).
Proof.
  intros Hds Hsamples Hkeys Hrun.
  destruct (get_sample_info_returns config table Hrun)
    as [ds' [samples' [colors [Hds' [Hsamples' ->]]]]].
  rewrite Hds in Hds'. inversion Hds'; subst ds'.
  rewrite Hsamples in Hsamples'. inversion Hsamples'; subst samples'.
  now apply spec_sample_info_ids_nodup.
Qed.

Lemma get_sample_info_ids_unique_witness :
  List.NoDup (map sample_id
    [ {| sample_id := "a_1"; group := "a"; color := "#999999" |};
      {| sample_id := "a_2"; group := "a"; color := "#999999" |};
      {| sample_id := "a_1_1"; group := "a_1"; color := "#999999" |} ]).
Proof.
  apply (get_sample_info_ids_unique underscore_config
           {| ds_name := None; ds_total_files := None;
              ds_samples := Some [("a", 2%Z); ("a_1", 1%Z)] |}
           [("a", 2%Z); ("a_1", 1%Z)]).
  - reflexivity.
  - reflexivity.
  - repeat constructor; simpl; intuition discriminate.
  - reflexivity.
Defined.

(** X2.  Whenever [get_sample_info] returns, the number of rows is the sum
    of the configured counts with every negative count taken as zero:
    [range(count)] is empty for a negative count, so such a group adds no
    row and removes none. *)
Theorem get_sample_info_row_count (config : Config) (ds : DatasetSection)
    (samples : dict Z) (table : list SampleRow) :
  cfg_dataset config = Some ds ->
  ds_samples ds = Some samples ->
  get_sample_info config = Ok table ->
  Z.of_nat (length table) = sum (map (Z.max 0) (values samples)).
Proof.
  intros Hds Hsamples Hrun.
  destruct (get_sample_info_returns config table Hrun)
    as [ds' [samples' [colors [Hds' [Hsamples' ->]]]]].
  rewrite Hds in Hds'. inversion Hds'; subst ds'.
  rewrite Hsamples in Hsamples'. inversion Hsamples'; subst samples'.
  apply spec_sample_info_length_clamped.
Qed.

Lemma get_sample_info_row_count_witness :
  Z.of_nat (length [ {| sample_id := "a_1"; group := "a";
                        color := "#999999" |} ]) =
  sum (map (Z.max 0) (values [("a", 1%Z); ("b", (-1)%Z)])).
Proof.
  exact (get_sample_info_row_count negative_count_config
           {| ds_name := None; ds_total_files := None;
              ds_samples := Some [("a", 1%Z); ("b", (-1)%Z)] |}
           [("a", 1%Z); ("b", (-1)%Z)] _ eq_refl eq_refl eq_refl).
Defined.

(** X3.  A data set that [validate_data] accepts has one row per row of the
    sample table: with non-negative group counts, whenever the validator
    answers [True] and [get_sample_info] returns, the table is as long as
    the data set. *)
Theorem validated_data_matches_sample_info (data : DataFrame)
    (config : Config) (ds : DatasetSection) (samples : dict Z) (w : World)
    (errors : list string) (table : list SampleRow) :
  cfg_dataset config = Some ds ->
  ds_samples ds = Some samples ->
  Forall (fun c => (0 <= c)%Z) (values samples) ->
  fst (validate_data data config w) = Ok (true, errors) ->
  get_sample_info config = Ok table ->
  length table = len data.
Proof.
  intros Hds Hsamples Hpos Hvalid Htable.
  rewrite (validate_data_run data config ds samples w Hds Hsamples) in Hvalid.
  simpl in Hvalid. inversion Hvalid as [[Hflag Herrors]]. clear Hvalid Herrors.
  apply Nat.eqb_eq, length_zero_iff_nil, app_eq_nil in Hflag.
  destruct Hflag as [Hcount _]. unfold row_count_errors in Hcount.
  destruct (Z.eqb_spec (Z.of_nat (len data)) (sum (values samples)))
    as [Heq|_]; [|discriminate].
  destruct (get_sample_info_returns config table Htable)
    as [ds' [samples' [colors [Hds' [Hsamples' ->]]]]].
  rewrite Hds in Hds'. inversion Hds'; subst ds'.
  rewrite Hsamples in Hsamples'. inversion Hsamples'; subst samples'.
  apply Nat2Z.inj. rewrite Heq. now apply spec_sample_info_length.
Qed.

Lemma validated_data_matches_sample_info_witness :
  length [ {| sample_id := "ctl_1"; group := "ctl"; color := "#00ff00" |};
           {| sample_id := "ctl_2"; group := "ctl"; color := "#00ff00" |};
           {| sample_id := "trt_1"; group := "trt"; color := "#999999" |} ]
  = len example_frame.
Proof.
  apply (validated_data_matches_sample_info example_frame example_config
           {| ds_name := Some "D"; ds_total_files := Some 3%Z;
              ds_samples := Some [("ctl", 2%Z); ("trt", 1%Z)] |}
           [("ctl", 2%Z); ("trt", 1%Z)] example_world []).
  - reflexivity.
  - reflexivity.
  - repeat constructor; simpl; lia.
  - reflexivity.
  - reflexivity.
Defined.

(** ** validate_data on frames without rows or without columns *)

Lemma select_all_true {A} (labels : list A) (mask : list bool) :
  length labels = length mask -> (forall b, In b mask -> b = true) ->
  select labels mask = labels.
Proof.
  unfold select. revert mask.
  induction labels as [|x labels IH]; intros [|b mask] Hlen Hmask;
    simpl in *; try discriminate; [reflexivity|].
  rewrite (Hmask b) by now left. simpl. f_equal. apply IH; [lia|].
  intros b' Hb'. apply Hmask. now right.
Qed.

Lemma select_nil_mask {A} (labels : list A) : select labels [] = [].
Proof. unfold select. now destruct labels. Qed.

(** X4.  Emptiness is judged vacuously.  On a frame with columns but no
    row every column counts as completely empty, and on a frame with rows
    but no column every row does: such a frame is never valid, whatever the
    configured counts, and the message gives the number of columns, or of
    rows. *)
Theorem validate_data_degenerate_frame (data : DataFrame) (config : Config)
    (ds : DatasetSection) (samples : dict Z) (w : World) :
  cfg_dataset config = Some ds ->
  ds_samples ds = Some samples ->
  (rows data = [] -> columns data <> [] ->
   fst (validate_data data config w) =
   Ok (false, row_count_errors data (sum (values samples))
              ++ [empty_features_message (length (columns data))])) /\
  (columns data = [] -> rows data <> [] ->
   fst (validate_data data config w) =
   Ok (false, row_count_errors data (sum (values samples))
              ++ [empty_samples_message (len data)])).
Proof.
  intros Hds Hsamples.
  rewrite (validate_data_run data config ds samples w Hds Hsamples).
  cbn [fst]. split.
  - intros Hrows Hcols.
    assert (Hfeatures : select (columns data) (isnull_all data) = columns data).
    { apply select_all_true.
      - unfold isnull_all, column_ids. now rewrite length_map, length_seq.
      - intros b Hb. unfold isnull_all in Hb. apply in_map_iff in Hb.
        destruct Hb as [j [<- _]]. unfold column. now rewrite Hrows. }
    unfold empty_feature_errors, empty_sample_errors.
    rewrite Hfeatures. unfold isnull_all_axis1, len. rewrite Hrows.
    cbn [map length seq]. rewrite select_nil_mask. cbn [length Nat.ltb Nat.leb].
    destruct (columns data) as [|c cols]; [now destruct Hcols|].
    cbn [length Nat.ltb Nat.leb]. rewrite app_nil_r.
    now destruct (row_count_errors _ _).
  - intros Hcols Hrows.
    assert (Hsamples' : select (seq 0 (len data)) (isnull_all_axis1 data)
                        = seq 0 (len data)).
    { apply select_all_true.
      - unfold isnull_all_axis1, len. now rewrite length_map, length_seq.
      - intros b Hb. unfold isnull_all_axis1, column_ids in Hb.
        rewrite Hcols in Hb. apply in_map_iff in Hb.
        now destruct Hb as [r [<- _]]. }
    unfold empty_feature_errors, empty_sample_errors.
    rewrite Hsamples', length_seq. unfold isnull_all, column_ids.
    rewrite Hcols. cbn [map length seq]. rewrite select_nil_mask.
    cbn [length Nat.ltb Nat.leb]. unfold len in *.
    destruct (rows data) as [|r rs]; [now destruct Hrows|].
    cbn [length Nat.ltb Nat.leb app].
    now destruct (row_count_errors _ _).
Qed.

Lemma validate_data_degenerate_frame_witness :
  fst (validate_data zero_row_frame no_groups_config example_world) =
  Ok (false, ["Found 2 completely empty features"]).
Proof.
  apply (proj1 (validate_data_degenerate_frame zero_row_frame
                  no_groups_config
                  {| ds_name := None; ds_total_files := None;
                     ds_samples := Some [] |} [] example_world
                  eq_refl eq_refl)).
  - reflexivity.
  - discriminate.
Defined.

(** ** calculate_missing_percentage: the table as a whole *)

Lemma take_rows_permutation (frame : list MissingStat) (indexer : list nat) :
  Permutation indexer (seq 0 (length frame)) ->
  Permutation (take_rows frame indexer) frame.
Proof.
  intros Hperm. unfold take_rows.
  transitivity (map (fun i => nth i frame no_stat) (seq 0 (length frame))).
  - now apply Permutation_map.
  - now rewrite map_nth_all.
Qed.

Lemma permutation_filter_length {A} (p : A -> bool) (l l' : list A) :
  Permutation l l' ->
  length (List.filter p l) = length (List.filter p l').
Proof.
  induction 1 as [|x l l' _ IH|x y l|l l' l'' _ IH1 _ IH2]; simpl.
  - reflexivity.
  - destruct (p x); simpl; congruence.
  - destruct (p x), (p y); reflexivity.
  - congruence.
Qed.

Lemma filter_map_length {A B} (p : B -> bool) (f : A -> B) (l : list A) :
  length (List.filter p (map f l)) =
  length (List.filter (fun x => p (f x)) l).
Proof.
  induction l as [|x l IH]; simpl; [reflexivity|].
  destruct (p (f x)); simpl; congruence.
Qed.

Lemma select_length_count {A} (labels : list A) (mask : list bool) :
  length labels = length mask ->
  length (select labels mask) = length (List.filter (fun b => b) mask).
Proof.
  unfold select. rewrite length_map. revert mask.
  induction labels as [|x labels IH]; intros [|b mask] Hlen;
    simpl in *; try discriminate; [reflexivity|].
  destruct b; simpl; rewrite IH by lia; reflexivity.
Qed.

Lemma forallb_count {A} (p : A -> bool) (l : list A) :
  forallb p l = (length (List.filter p l) =? length l)%nat.
Proof.
  induction l as [|x l IH]; simpl; [reflexivity|].
  destruct (p x); simpl; [exact IH|].
  pose proof (List.filter_length_le p l) as Hle.
  symmetry. apply Nat.eqb_neq. lia.
Qed.

Lemma column_length (data : DataFrame) (j : nat) :
  length (column data j) = len data.
Proof. unfold column, len. apply length_map. Qed.

Lemma count_missing_le (data : DataFrame) (j : nat) :
  (count_missing data j <= len data)%nat.
Proof.
  unfold count_missing. rewrite <- (column_length data j).
  apply List.filter_length_le.
Qed.

Section WholeTable.
Variable argsort : list Q -> list nat.
Hypothesis Hcontract : argsort_contract argsort.

Lemma calculate_missing_percentage_permutation (data : DataFrame) :
  Permutation (calculate_missing_percentage argsort data)
              (missing_stats_unsorted data).
Proof.
  unfold calculate_missing_percentage, sort_values_pct_descending.
  apply take_rows_permutation.
  destruct (rows data) as [|r rs] eqn:Hrows.
  - rewrite (nargsort_all_nan argsort Hcontract).
    + now rewrite length_map.
    + rewrite (missing_stats_zero_rows data Hrows), map_map.
      intros x Hx. apply in_map_iff in Hx. now destruct Hx as [c [<- _]].
  - assert (Hlen : (0 < len data)%nat)
      by (unfold len; rewrite Hrows; simpl; lia).
    rewrite (pct_missing_unsorted data Hlen), missing_stats_unsorted_length.
    set (qs := map (pct_value data) (seq 0 (length (columns data)))).
    replace (length (columns data)) with (length qs)
      by (unfold qs; now rewrite length_map, length_seq).
    apply (nargsort_perm argsort Hcontract).
Qed.

End WholeTable.

Lemma missing_stats_unsorted_row (data : DataFrame) (r : MissingStat) :
  In r (missing_stats_unsorted data) ->
  exists j, (j < length (columns data))%nat /\
            n_missing r = count_missing data j /\
            pct_missing r = pct_code data j.
Proof.
  rewrite missing_stats_unsorted_spec. intros Hr.
  apply in_map_iff in Hr. destruct Hr as [j [<- Hj]].
  apply in_seq in Hj. exists j. repeat split. lia.
Qed.

(** X5.  Sorting loses and invents nothing: for any data set, with rows
    or without, the [feature] column of the result is a rearrangement of
    the column labels of the data set, so every feature is reported exactly
    as often as it occurs among the columns. *)
Theorem calculate_missing_percentage_features (argsort : list Q -> list nat)
    (data : DataFrame) :
  argsort_contract argsort ->
  Permutation (map feature (calculate_missing_percentage argsort data))
              (columns data).
Proof.
  intros Hcontract. rewrite <- (feature_unsorted data).
  apply Permutation_map.
  now apply calculate_missing_percentage_permutation.
Qed.

Lemma calculate_missing_percentage_features_witness :
  Permutation
    (map feature (calculate_missing_percentage stable_argsort example_frame))
    (columns example_frame).
Proof.
  exact (calculate_missing_percentage_features stable_argsort example_frame
           stable_argsort_contract).
Defined.

(** X6.  Every row of the result stays within bounds: [n_missing] never
    exceeds the number of rows of the data set, and [pct_missing] is a
    number between 0 and 100 when the data set has a row, and NaN exactly
    when it has none. *)
Theorem calculate_missing_percentage_bounds (argsort : list Q -> list nat)
    (data : DataFrame) :
  argsort_contract argsort ->
  Forall (fun r =>
            (n_missing r <= len data)%nat /\
            match pct_missing r with
            | Some q => (0 < len data)%nat /\ (0 <= q)%Q /\ (q <= 100)%Q
            | None => len data = 0%nat
            end)
         (calculate_missing_percentage argsort data).
Proof.
  intros Hcontract. apply List.Forall_forall. intros r Hr.
  apply (Permutation_in r
           (calculate_missing_percentage_permutation argsort Hcontract data))
    in Hr.
  apply missing_stats_unsorted_row in Hr.
  destruct Hr as [j [_ [-> ->]]].
  pose proof (count_missing_le data j) as Hle.
  split; [exact Hle|].
  unfold pct_code, true_div.
  destruct (Nat.eqb_spec (len data) 0) as [H0|Hpos]; simpl; [exact H0|].
  split; [lia|].
  assert (Hden : Z.pos (Pos.of_nat (len data)) = Z.of_nat (len data)).
  { rewrite <- positive_nat_Z, Nat2Pos.id by lia. reflexivity. }
  unfold Qle. simpl. rewrite Pos.mul_1_r, Hden. lia.
Qed.

Lemma calculate_missing_percentage_bounds_witness :
  Forall (fun r =>
            (n_missing r <= len example_frame)%nat /\
            match pct_missing r with
            | Some q => (0 < len example_frame)%nat /\
                        (0 <= q)%Q /\ (q <= 100)%Q
            | None => len example_frame = 0%nat
            end)
         (calculate_missing_percentage stable_argsort example_frame).
Proof.
  exact (calculate_missing_percentage_bounds stable_argsort example_frame
           stable_argsort_contract).
Defined.

(** X7.  The statistics table and the validator agree on empty features:
    the rows of [calculate_missing_percentage] whose [n_missing] equals
    the number of rows of the data set are as many as the features that
    [validate_data] counts as completely empty, on any data set. *)
Theorem fully_missing_rows_are_empty_features (argsort : list Q -> list nat)
    (data : DataFrame) :
  argsort_contract argsort ->
  length (List.filter (fully_missing data)
                      (calculate_missing_percentage argsort data)) =
  length (select (columns data) (isnull_all data)).
Proof.
  intros Hcontract.
  rewrite (permutation_filter_length _ _ _
             (calculate_missing_percentage_permutation argsort Hcontract data)).
  rewrite missing_stats_unsorted_spec, filter_map_length.
  rewrite select_length_count
    by (unfold isnull_all, column_ids; now rewrite length_map, length_seq).
  unfold isnull_all, column_ids. rewrite filter_map_length.
  f_equal. apply List.filter_ext. intros j.
  unfold fully_missing, count_missing. cbn [n_missing].
  now rewrite forallb_count, column_length.
Qed.

Lemma fully_missing_rows_are_empty_features_witness :
  length (List.filter (fully_missing zero_row_frame)
            (calculate_missing_percentage stable_argsort zero_row_frame)) =
  length (select (columns zero_row_frame) (isnull_all zero_row_frame)).
Proof.
  exact (fully_missing_rows_are_empty_features stable_argsort zero_row_frame
           stable_argsort_contract).
Defined.

(** ** Directory creation: what is added, and where *)

Lemma os_mkdir_fresh (p : path) (f f' : FS) :
  os_mkdir p f = Ok f' ->
  is_file f p = false /\ existsb (is_file f) (ancestors p) = false.
Proof.
  unfold os_mkdir.
  destruct (is_dir f p); [discriminate|].
  destruct (is_file f p); [discriminate|].
  destruct (existsb (is_file f) (ancestors p)); [discriminate|].
  auto.
Qed.

Lemma parent_prefix (p : path) : parent p `prefix_of` p.
Proof.
  unfold parent. destruct (is_root p); [reflexivity|].
  destruct p as [|x q _] using rev_ind; [reflexivity|].
  rewrite removelast_last. now exists [x].
Qed.

Lemma added_towards_refl (targets : list path) (f : FS) :
  added_towards targets f f.
Proof. intros q Hq. now left. Qed.

Lemma added_towards_trans (targets : list path) (f f1 f2 : FS) :
  files f1 = files f ->
  added_towards targets f f1 -> added_towards targets f1 f2 ->
  added_towards targets f f2.
Proof.
  intros Hfiles H1 H2 q Hq.
  destruct (H2 q Hq) as [Hold|Hnew]; [now apply H1|].
  right. unfold is_file in *. now rewrite <- Hfiles.
Qed.

Lemma added_towards_weaken (targets targets' : list path) (f f' : FS) :
  (forall p, In p targets ->
     exists p', In p' targets' /\ p `prefix_of` p') ->
  added_towards targets f f' -> added_towards targets' f f'.
Proof.
  intros Hsub Hadd q Hq.
  destruct (Hadd q Hq) as [Hold|(Hfile & Hanc & p & Hp & Hpre)];
    [now left | right].
  split; [exact Hfile|]. split; [exact Hanc|].
  destruct (Hsub p Hp) as (p' & Hp' & Hpre').
  exists p'. split; [exact Hp'|]. now transitivity p.
Qed.

Lemma mkdir_created_towards (p : path) (f f' : FS) :
  os_mkdir p f = Ok f' -> added_towards [p] f f'.
Proof.
  intros Hmk. pose proof (os_mkdir_fresh p f f' Hmk) as [Hfile Hanc].
  apply os_mkdir_ok in Hmk. destruct Hmk as [-> _].
  intros q Hq. simpl in Hq. apply elem_of_union in Hq.
  destruct Hq as [Hq|Hq]; [right | now left].
  apply elem_of_singleton in Hq. subst q.
  split; [exact Hfile|]. split; [exact Hanc|].
  exists p. split; [now left | reflexivity].
Qed.

Lemma mkdir_exist_ok_towards (p : path) (w w' : World) (r : result unit) :
  mkdir_exist_ok p w = (r, w') -> added_towards [p] (fs w) (fs w').
Proof.
  unfold mkdir_exist_ok.
  destruct (os_mkdir p (fs w)) as [f'|e] eqn:Hmk.
  - intros Heq. inversion Heq; subst. simpl.
    now apply mkdir_created_towards.
  - destruct e; try destruct (is_dir (fs w) p);
      intros Heq; inversion Heq; subst; apply added_towards_refl.
Qed.

Lemma mkdir_parents_towards (n : nat) (p : path) (w w' : World)
    (r : result unit) :
  mkdir_parents n p w = (r, w') -> added_towards [p] (fs w) (fs w').
Proof.
  revert p w w' r. induction n as [|n IH]; intros p w w' r; simpl;
    (destruct (os_mkdir p (fs w)) as [f'|e] eqn:Hmk;
      [intros Heq; inversion Heq; subst; simpl;
       now apply mkdir_created_towards|]).
  - destruct e; try destruct (is_dir (fs w) p);
      intros Heq; inversion Heq; subst; apply added_towards_refl.
  - destruct e; try (destruct (is_dir (fs w) p);
      intros Heq; inversion Heq; subst; apply added_towards_refl).
    destruct (bool_decide (parent p = p));
      [intros Heq; inversion Heq; subst; apply added_towards_refl|].
    unfold bind.
    destruct (mkdir_parents n (parent p) w) as [[[]|e] w1] eqn:Hpar.
    + intros Hleaf.
      pose proof (mkdir_parents_spec _ _ _ _ _ Hpar) as ((_ & Hfiles & _) & _).
      apply IH in Hpar. apply mkdir_exist_ok_towards in Hleaf.
      apply (added_towards_trans [p] (fs w) (fs w1) (fs w') Hfiles);
        [|exact Hleaf].
      apply (added_towards_weaken [parent p]); [|exact Hpar].
      intros t [<-|[]]. exists p. split; [now left | apply parent_prefix].
    + intros Heq. inversion Heq; subst. apply IH in Hpar.
      apply (added_towards_weaken [parent p]); [|exact Hpar].
      intros t [<-|[]]. exists p. split; [now left | apply parent_prefix].
Qed.

Lemma for_each_mkdir_towards (paths : dict string) (w w' : World)
    (r : result unit) :
  for_each paths make_directory w = (r, w') ->
  added_towards (map (fun entry => Path (snd entry)) paths) (fs w) (fs w').
Proof.
  revert w. induction paths as [|[name value] paths IH]; intros w; simpl.
  - intros Heq. inversion Heq; subst. apply added_towards_refl.
  - unfold bind.
    destruct (Path_mkdir (Path value) w) as [[[]|e] w1] eqn:Hhead.
    + intros Hrest.
      pose proof (mkdir_parents_spec _ _ _ _ _ Hhead) as ((_ & Hfiles & _) & _).
      apply mkdir_parents_towards in Hhead. apply IH in Hrest.
      apply (added_towards_trans _ (fs w) (fs w1) (fs w') Hfiles).
      * apply (added_towards_weaken [Path value]); [|exact Hhead].
        intros t [<-|[]]. exists (Path value). split; [now left | reflexivity].
      * apply (added_towards_weaken
                 (map (fun entry => Path (snd entry)) paths)); [|exact Hrest].
        intros t Ht. exists t. split; [now right | reflexivity].
    + intros Heq. inversion Heq; subst. apply mkdir_parents_towards in Hhead.
      apply (added_towards_weaken [Path value]); [|exact Hhead].
      intros t [<-|[]]. exists (Path value). split; [now left | reflexivity].
Qed.

(** X8.  Whether [create_directories] returns or raises, it leaves
    behind the world it found with possibly more directories: no file, no
    log record and no existing directory is touched, and every directory
    it adds is a configured path or lies above one. *)
Theorem create_directories_only_adds (config : Config) (w : World) :
  let w' := snd (create_directories config w) in
  extends w w' /\
  forall q, q ∈ dirs (fs w') ->
    q ∈ dirs (fs w) \/
    exists paths name value,
      cfg_paths config = Some paths /\ In (name, value) paths /\
      q `prefix_of` Path value.
Proof.
  unfold create_directories, bind, lift.
  destruct (cfg_paths config) as [paths|]; simpl.
  - destruct (for_each (items paths) make_directory w) as [r w'] eqn:Hloop.
    assert (Hw' : snd (match r with
                       | Ok _ => (r, w')
                       | Raise e => (Raise e, w')
                       end) = w') by now destruct r.
    destruct r as [[]|e]; simpl;
      pose proof (for_each_mkdir_spec _ _ _ _ Hloop) as (Hext & _);
      apply for_each_mkdir_towards in Hloop;
      (split; [exact Hext|]); intros q Hq;
      (destruct (Hloop q Hq) as [Hold|(_ & _ & p & Hp & Hpre)];
        [now left | right]);
      apply in_map_iff in Hp; destruct Hp as ([name value] & <- & Hin);
      exists paths, name, value; auto.
  - split; [apply extends_refl | now left].
Qed.

(** X9.  [exist_ok=True] forgives an existing directory only: when a
    configured path is not a directory and is a regular file, or lies under
    one, [create_directories] raises. *)
Theorem create_directories_blocked_by_file (config : Config)
    (paths : dict string) (name value : string) (w : World) :
  cfg_paths config = Some paths ->
  In (name, value) paths ->
  is_dir (fs w) (Path value) = false ->
  is_file (fs w) (Path value) = true \/
  existsb (is_file (fs w)) (ancestors (Path value)) = true ->
  exists e, fst (create_directories config w) = Raise e.
Proof.
  intros Hpaths Hin Hnodir Hfile.
  unfold create_directories, bind, lift. rewrite Hpaths. simpl.
  destruct (for_each (items paths) make_directory w) as [[[]|e] w'] eqn:Hloop;
    [|now exists e].
  exfalso.
  pose proof (for_each_mkdir_spec _ _ _ _ Hloop) as (_ & _ & Hdirs).
  specialize (Hdirs eq_refl name value Hin).
  apply for_each_mkdir_towards in Hloop.
  unfold is_dir in Hnodir, Hdirs.
  apply orb_false_iff in Hnodir. destruct Hnodir as [Hroot Hnot].
  rewrite Hroot in Hdirs. simpl in Hdirs.
  apply bool_decide_eq_true in Hdirs. apply bool_decide_eq_false in Hnot.
  destruct (Hloop _ Hdirs) as [Hold|(Hnofile & Hnoanc & _)];
    [contradiction|].
  destruct Hfile as [Hfile|Hfile]; congruence.
Qed.

Lemma create_directories_blocked_by_file_witness :
  exists e, fst (create_directories example_config blocked_world) = Raise e.
Proof.
  apply (create_directories_blocked_by_file example_config
           [("results", "out/results"); ("logs", "/var/log/run")]
           "results" "out/results" blocked_world).
  - reflexivity.
  - now left.
  - reflexivity.
  - right. reflexivity.
Defined.

(** ** save_results: what a call changes *)

Lemma os_write_frame (p : path) (c : content) (f f' : FS) :
  os_write p c f = Ok f' ->
  f' = {| dirs := dirs f; files := <[p := c]> (files f);
          readonly := readonly f |}.
Proof.
  unfold os_write.
  destruct (is_dir f p); [discriminate|].
  destruct (existsb (is_file f) (ancestors p)); [discriminate|].
  destruct (is_dir f (parent p)); simpl; [|discriminate].
  destruct (negb (is_file f p) && bool_decide (parent p ∈ readonly f));
    [discriminate|].
  intros Heq. now inversion Heq.
Qed.








(** ** setup_logging: the log file and the handlers *)



(** A run of [setup_logging] that returns, step by step. *)
Lemma setup_logging_run (config : Config) (w w' : World) (l : logger) :
  setup_logging config w = (Ok l, w') ->
  exists paths logs w1 f2,
    let log_file :=
      joinpath (Path logs)
        ("metabolomics_imputation_" +:+ strftime_compact (clock w)
         +:+ ".log") in
    cfg_paths config = Some paths /\
    lookup_key paths "logs" = Some logs /\
    Path_mkdir (Path logs) w = (Ok tt, w1) /\
    os_open_append log_file (fs w1) = Ok f2 /\
    w' = {| fs := f2; log := log w ++ ["Logging initialized"];
            clock := clock w; host := host w;
            root_handlers := match root_handlers w with
                             | Some hs => Some hs
                             | None => Some [log_file]
                             end;
            np_seed := np_seed w; py_seed := py_seed w |}.
Proof.
  unfold setup_logging. intros Hrun.
  apply bind_ok in Hrun. destruct Hrun as (paths & w0 & Hpaths & Hrun).
  apply lift_ok in Hpaths. destruct Hpaths as [Hpaths ->].
  apply bind_ok in Hrun. destruct Hrun as (logs & w0 & Hlogs & Hrun).
  apply lift_ok in Hlogs. destruct Hlogs as [Hlogs ->].
  apply bind_ok in Hrun. destruct Hrun as ([] & w1 & Hmk & Hrun).
  apply bind_ok in Hrun. destruct Hrun as (now & w2 & Hnow & Hrun).
  inversion Hnow; subst now w2. clear Hnow.
  apply bind_ok in Hrun. destruct Hrun as ([] & w2 & Hopen & Hrun).
  apply bind_ok in Hrun. destruct Hrun as ([] & w3 & Hconf & Hrun).
  apply bind_ok in Hrun. destruct Hrun as ([] & w4 & Hinfo & Hret).
  pose proof (mkdir_parents_spec _ _ _ _ _ Hmk) as ((_ & _ & _ & Hw1) & _).
  apply syscall_ok in Hopen. destruct Hopen as (f2 & Hopen & ->).
  exists paths, logs, w1, f2. cbv zeta.
  split. { destruct (cfg_paths config); simpl in Hpaths; congruence. }
  split. { unfold getitem in Hlogs.
           destruct (lookup_key paths "logs"); congruence. }
  split; [exact Hmk|].
  assert (Hclock : clock w1 = clock w) by now rewrite Hw1.
  rewrite Hclock in *. split; [exact Hopen|].
  inversion Hret; subst w'. clear Hret.
  unfold logger_info in Hinfo. inversion Hinfo; subst w4. clear Hinfo.
  unfold basic_config in Hconf. inversion Hconf; subst w3. clear Hconf.
  rewrite Hw1. simpl.
  destruct (root_handlers w) eqn:Hhandlers; simpl; rewrite ?Hhandlers;
    reflexivity.
Qed.

(** X13.  [setup_logging] installs its file handler only on a root logger
    that has no handler yet: on one that has handlers, [basicConfig]
    changes nothing and the handlers stay as they were.  Since the
    module-level [logging.info] gives an unconfigured root logger a console
    handler, a [setup_logging] that follows a successful
    [set_random_seed] leaves the root logger without a file handler. *)
Theorem setup_logging_handlers (config : Config) (w w' : World) (l : logger) :
  setup_logging config w = (Ok l, w') ->
  (forall hs, root_handlers w = Some hs -> root_handlers w' = Some hs) /\
  (root_handlers w = None ->
   exists paths logs,
     cfg_paths config = Some paths /\ lookup_key paths "logs" = Some logs /\
     root_handlers w' =
     Some [joinpath (Path logs)
             ("metabolomics_imputation_" +:+ strftime_compact (clock w)
              +:+ ".log")]) /\
  (forall seed w0,
     root_handlers w0 = None ->
     set_random_seed (Some seed) w0 = (Ok tt, w) ->
     root_handlers w' = Some []).
Proof.
  intros Hrun. apply setup_logging_run in Hrun.
  destruct Hrun as (paths & logs & w1 & f2 & Hpaths & Hlogs & _ & _ & ->).
  cbn [root_handlers]. split; [|split].
  - intros hs Hhs. now rewrite Hhs.
  - intros Hnone. exists paths, logs. now rewrite Hnone.
  - intros seed w0 Hnone Hseed.
    unfold set_random_seed, bind, np_random_seed, random_seed, logging_info
      in Hseed.
    destruct ((0 <=? seed) && (seed <? 2 ^ 32))%Z; [|discriminate].
    inversion Hseed; subst w. cbn [root_handlers]. now rewrite Hnone.
Qed.

Lemma setup_logging_handlers_witness :
  root_handlers (snd (setup_logging example_config example_world)) =
    Some [["/"; "var"; "log"; "run";
           "metabolomics_imputation_20240309_070500.log"]] /\
  root_handlers
    (snd (setup_logging example_config
            (snd (set_random_seed (Some 42%Z) example_world)))) = Some [].
Proof.
  split.
  - destruct (setup_logging_handlers example_config example_world
                (snd (setup_logging example_config example_world))
                ModuleLogger) as (_ & Hfresh & _);
      [vm_compute; reflexivity|].
    destruct (Hfresh eq_refl) as (paths & logs & Hpaths & Hlogs & Hhandlers).
    inversion Hpaths; subst paths. inversion Hlogs; subst logs.
    exact Hhandlers.
  - destruct (setup_logging_handlers example_config
                (snd (set_random_seed (Some 42%Z) example_world))
                (snd (setup_logging example_config
                        (snd (set_random_seed (Some 42%Z) example_world))))
                ModuleLogger) as (_ & _ & Hafter);
      [vm_compute; reflexivity|].
    apply (Hafter 42%Z example_world); [reflexivity|].
    vm_compute. reflexivity.
Defined.


(** ** set_random_seed *)



(** ** export_session_info *)

Lemma joinpath_file_name (p : path) :
  joinpath p "session_info.yaml" = p ++ ["session_info.yaml"].
Proof. reflexivity. Qed.

Lemma parent_of_child (p : path) (x : string) :
  String.eqb x "/" = false -> parent (p ++ [x]) = p.
Proof.
  intros Hx. unfold parent.
  assert (Hroot : is_root (p ++ [x]) = false).
  { destruct p as [|a [|b p]]; simpl; [exact Hx | reflexivity..]. }
  rewrite Hroot. apply removelast_last.
Qed.

(** X16.  [export_session_info] does not create the directory it writes
    to.  With the default output path, when [paths.results] is not an
    existing directory the call raises, and leaves the world as it was:
    no file, no log record. *)
Theorem export_session_info_needs_directory (config : Config)
    (paths : dict string) (results : string) (w : World) :
  cfg_paths config = Some paths ->
  lookup_key paths "results" = Some results ->
  is_dir (fs w) (Path results) = false ->
  exists e, export_session_info config None w = (Raise e, w).
Proof.
  intros Hpaths Hresults Hnodir.
  unfold export_session_info, bind, lift, datetime_now, getitem, ret.
  rewrite Hpaths. simpl. rewrite Hresults. cbn [fst snd].
  unfold syscall, os_write.
  rewrite joinpath_file_name, parent_of_child by reflexivity.
  rewrite Hnodir.
  destruct (is_dir (fs w) (Path results ++ ["session_info.yaml"]));
    [eauto|].
  destruct (existsb (is_file (fs w))
              (ancestors (Path results ++ ["session_info.yaml"]))); eauto.
Qed.

Lemma export_session_info_needs_directory_witness :
  exists e, export_session_info example_config None example_world
            = (Raise e, example_world).
Proof.
  exact (export_session_info_needs_directory example_config
           [("results", "out/results"); ("logs", "/var/log/run")]
           "out/results" example_world eq_refl eq_refl eq_refl).
Defined.

Lemma ancestors_shorter (p a : path) :
  In a (ancestors p) -> (length a < length p)%nat.
Proof.
  revert a. induction p as [|x p IH]; intros a; simpl; [intros []|].
  intros [<-|Hin]; [simpl; lia|].
  apply in_map_iff in Hin. destruct Hin as [b [<- Hb]].
  apply IH in Hb. simpl. lia.
Qed.

Lemma existsb_agree {A} (f g : A -> bool) (l : list A) :
  (forall a, In a l -> f a = g a) -> existsb f l = existsb g l.
Proof.
  induction l as [|x l IH]; intros Hfg; simpl; [reflexivity|].
  rewrite (Hfg x) by now left. f_equal. apply IH.
  intros a Ha. apply Hfg. now right.
Qed.

(** What has been written is what is read. *)
Lemma os_read_after_write (p : path) (c : content) (f f' : FS) :
  os_write p c f = Ok f' -> os_read p f' = Ok c.
Proof.
  intros Hwrite. pose proof (os_write_frame p c f f' Hwrite) as ->.
  unfold os_write in Hwrite. unfold os_read, is_dir in *. simpl.
  destruct (is_root p || bool_decide (p ∈ dirs f)); [discriminate|].
  destruct (existsb (is_file f) (ancestors p)) eqn:Hanc; [discriminate|].
  assert (Hanc' : existsb (is_file {| dirs := dirs f;
                                      files := <[p := c]> (files f);
                                      readonly := readonly f |})
                          (ancestors p) = false).
  { rewrite <- Hanc. apply existsb_agree. intros a Ha.
    apply ancestors_shorter in Ha. unfold is_file. simpl.
    rewrite lookup_insert_ne; [reflexivity|].
    intros ->. lia. }
  rewrite Hanc'. now rewrite lookup_insert_eq.
Qed.

(** X17.  What [export_session_info] has written to a path of the
    caller's choice is what a following [load_config] of that path reads:
    the parser is handed the snapshot with the time stamp, the interpreter
    version, the platform and the configuration of the export, and the
    answer of [load_config] is the parser's. *)
Theorem load_config_reads_exported_session
    (yaml_safe_load : content -> result Config) (config : Config)
    (s : string) (w w' : World) :
  export_session_info config (Some s) w = (Ok tt, w') ->
  load_config yaml_safe_load s w' =
  (yaml_safe_load
     (SessionYaml {| si_timestamp := isoformat (clock w);
                     si_python_version := sys_version (host w);
                     si_platform := platform_name (host w);
                     si_config := config |}), w').
Proof.
  unfold export_session_info. intros Hrun.
  apply bind_ok in Hrun. destruct Hrun as (now & w0 & Hnow & Hrun).
  inversion Hnow; subst now w0. clear Hnow.
  apply bind_ok in Hrun. destruct Hrun as (h & w0 & Hhost & Hrun).
  inversion Hhost; subst h w0. clear Hhost.
  apply bind_ok in Hrun. destruct Hrun as ([p shown] & w0 & Hpath & Hrun).
  inversion Hpath; subst p shown w0. clear Hpath.
  apply bind_ok in Hrun. destruct Hrun as ([] & w2 & Hwrite & Hlog).
  apply syscall_ok in Hwrite. destruct Hwrite as (f2 & Hwrite & ->).
  apply os_read_after_write in Hwrite. cbn [fst] in Hwrite.
  unfold logging_info in Hlog. inversion Hlog; subst w'. clear Hlog.
  unfold load_config, bind, lift, ret. cbn [fs set_fs fst].
  rewrite Hwrite. now destruct (yaml_safe_load _).
Qed.

Lemma load_config_reads_exported_session_witness :
  let parse c := match c with
                 | SessionYaml info => Ok (si_config info)
                 | _ => Raise (YAMLError "not a session")
                 end in
  let w1 := snd (create_directories example_config example_world) in
  let w2 := snd (export_session_info example_config
                   (Some "out/results/run.yaml") w1) in
  load_config parse "out/results/run.yaml" w2 = (Ok example_config, w2).
Proof.
  intros parse w1 w2.
  apply (load_config_reads_exported_session parse example_config
           "out/results/run.yaml" w1 w2).
  vm_compute. reflexivity.
Defined.

(** ** Missing keys *)

(** X18.  The [subdirectory] of [save_results] is a key of the [paths]
    section, not a directory below the results: a name that [paths] does
    not hold raises [KeyError] with that name.  Likewise [setup_logging]
    needs [paths.logs] and [export_session_info], without an output path,
    [paths.results].  Each of them fails before it has touched anything:
    the world is as it was. *)
Theorem missing_path_entry_raises (config : Config) (paths : dict string)
    (w : World) :
  cfg_paths config = Some paths ->
  (forall data filename subdirectory,
     lookup_key paths subdirectory = None ->
     save_results data filename config subdirectory w
     = (Raise (KeyError subdirectory), w)) /\
  (lookup_key paths "logs" = None ->
   setup_logging config w = (Raise (KeyError "logs"), w)) /\
  (lookup_key paths "results" = None ->
   export_session_info config None w = (Raise (KeyError "results"), w)).
Proof.
  intros Hpaths. split; [|split].
  - intros data filename subdirectory Hnone.
    unfold save_results, bind, lift, getitem.
    rewrite Hpaths. simpl. now rewrite Hnone.
  - intros Hnone. unfold setup_logging, bind, lift, getitem.
    rewrite Hpaths. simpl. now rewrite Hnone.
  - intros Hnone.
    unfold export_session_info, bind, lift, getitem, datetime_now.
    rewrite Hpaths. simpl. now rewrite Hnone.
Qed.

Lemma missing_path_entry_raises_witness :
  save_results (Frame example_frame) "stats.csv" example_config "tables"
               example_world
  = (Raise (KeyError "tables"), example_world).
Proof.
  exact (proj1 (missing_path_entry_raises example_config
                  [("results", "out/results"); ("logs", "/var/log/run")]
                  example_world eq_refl)
           (Frame example_frame) "stats.csv" "tables" eq_refl).
Defined.

(** X19.  [generate_report_summary] reads the clock and changes nothing,
    whatever it is given.  It looks its keys up in the order of the lines
    of the report, and the first one missing is the [KeyError] raised:
    [name] of the project, then [dataset], its [name], and [total_files];
    the results play no part in a failure. *)
Theorem generate_report_summary_key_errors (results : dict (dict float))
    (config : Config) (w : World) :
  snd (generate_report_summary results config w) = w /\
  (forall project,
     cfg_project config = Some project -> proj_name project = None ->
     fst (generate_report_summary results config w) = Raise (KeyError "name"))
  /\
  (forall project name,
     cfg_project config = Some project -> proj_name project = Some name ->
     (cfg_dataset config = None ->
      fst (generate_report_summary results config w)
      = Raise (KeyError "dataset")) /\
     (forall ds,
        cfg_dataset config = Some ds ->
        (ds_name ds = None ->
         fst (generate_report_summary results config w)
         = Raise (KeyError "name")) /\
        (forall dname,
           ds_name ds = Some dname -> ds_total_files ds = None ->
           fst (generate_report_summary results config w)
           = Raise (KeyError "total_files")))).
Proof.
  unfold generate_report_summary, bind, lift, datetime_now, ret.
  split; [|split].
  - destruct (cfg_project config) as [project|]; [|reflexivity]. simpl.
    destruct (proj_name project); [|reflexivity]. simpl.
    destruct (cfg_dataset config) as [ds|]; [|reflexivity]. simpl.
    destruct (ds_name ds); [|reflexivity]. simpl.
    destruct (ds_total_files ds); reflexivity.
  - intros project -> Hname. simpl. now rewrite Hname.
  - intros project name -> Hname. simpl. rewrite Hname. simpl.
    split; [now intros ->|].
    intros ds ->. simpl. split; [now intros ->|].
    intros dname -> Htotal. simpl. now rewrite Htotal.
Qed.

Lemma generate_report_summary_key_errors_witness :
  fst (generate_report_summary knn_results
         {| cfg_paths := None;
            cfg_dataset := Some {| ds_name := Some "D";
                                   ds_total_files := None;
                                   ds_samples := None |};
            cfg_visualization := None;
            cfg_project := Some {| proj_name := Some "Test" |} |}
         example_world)
  = Raise (KeyError "total_files").
Proof.
  destruct (generate_report_summary_key_errors knn_results
              {| cfg_paths := None;
                 cfg_dataset := Some {| ds_name := Some "D";
                                        ds_total_files := None;
                                        ds_samples := None |};
                 cfg_visualization := None;
                 cfg_project := Some {| proj_name := Some "Test" |} |}
              example_world) as (_ & _ & Hrest).
  destruct (Hrest _ "Test" eq_refl eq_refl) as (_ & Hds).
  destruct (Hds _ eq_refl) as (_ & Htotal).
  exact (Htotal "D" eq_refl eq_refl).
Defined.

(** ** The name of the log file *)

Lemma append_inv_head (p a b : string) : p +:+ a = p +:+ b -> a = b.
Proof.
  induction p as [|c p IH]; [auto|].
  rewrite !append_cons. intros Heq. inversion Heq. auto.
Qed.

Lemma string_length_append (a b : string) :
  String.length (a +:+ b) = (String.length a + String.length b)%nat.
Proof.
  induction a as [|c a IH]; [reflexivity|].
  rewrite append_cons. simpl. now rewrite IH.
Qed.

Lemma append_inv_same_length (a a' b b' : string) :
  String.length b = String.length b' ->
  a +:+ b = a' +:+ b' -> a = a' /\ b = b'.
Proof.
  intros Hlen. revert a'.
  induction a as [|c a IH]; intros [|c' a'] Heq.
  - auto.
  - change ("" +:+ b) with b in Heq.
    apply (f_equal String.length) in Heq.
    rewrite append_cons in Heq. simpl in Heq.
    rewrite string_length_append in Heq. lia.
  - change ("" +:+ b') with b' in Heq.
    apply (f_equal String.length) in Heq.
    rewrite append_cons in Heq. simpl in Heq.
    rewrite string_length_append in Heq. lia.
  - rewrite !append_cons in Heq. inversion Heq; subst.
    destruct (IH a' H1) as [-> ->]. auto.
Qed.

Lemma str_nat_injective (n m : nat) : str_nat n = str_nat m -> n = m.
Proof.
  unfold str_nat. intros Heq. apply DecimalNat.Unsigned.to_uint_inj.
  assert (Hsome : Some (Nat.to_uint n) = Some (Nat.to_uint m))
    by now rewrite <- !NilEmpty.usu, Heq.
  now inversion Hsome.
Qed.

Lemma numeral_without_slash (d : Decimal.uint) :
  contains_char "/" (NilEmpty.string_of_uint d) = false.
Proof. induction d; cbn [NilEmpty.string_of_uint contains_char]; auto. Qed.

Lemma pad2_without_slash (n : nat) : contains_char "/" (pad2 n) = false.
Proof.
  unfold pad2, str_nat. destruct (n <? 10)%nat.
  - rewrite contains_char_append. apply numeral_without_slash.
  - apply numeral_without_slash.
Qed.

Lemma strftime_compact_without_slash (t : datetime) :
  contains_char "/" (strftime_compact t) = false.
Proof.
  unfold strftime_compact.
  rewrite !contains_char_append, !pad2_without_slash.
  unfold str_nat. now rewrite numeral_without_slash.
Qed.

Lemma split_on_absent (sep : ascii) (s : string) :
  contains_char sep s = false -> split_on sep s = [s].
Proof.
  induction s as [|c s IH]; [reflexivity|].
  cbn [contains_char split_on]. intros Hno.
  apply orb_false_iff in Hno. destruct Hno as [Hc Hs].
  now rewrite (IH Hs), Hc.
Qed.

Lemma pad2_length (n : nat) :
  (n < 100)%nat -> String.length (pad2 n) = 2%nat.
Proof.
  intros Hn.
  assert (Hall : forallb (fun k => (String.length (pad2 k) =? 2)%nat)
                         (seq 0 100) = true) by (vm_compute; reflexivity).
  rewrite forallb_forall in Hall.
  apply Nat.eqb_eq, Hall, in_seq. lia.
Qed.

Lemma pad2_injective (n m : nat) :
  (n < 100)%nat -> (m < 100)%nat -> pad2 n = pad2 m -> n = m.
Proof.
  intros Hn Hm Heq.
  assert (Hall : forallb (fun k =>
                    forallb (fun j => implb (String.eqb (pad2 k) (pad2 j))
                                            (k =? j)%nat)
                            (seq 0 100))
                    (seq 0 100) = true) by (vm_compute; reflexivity).
  rewrite forallb_forall in Hall.
  assert (Hrow := Hall n). rewrite forallb_forall in Hrow.
  assert (Hcell : implb (String.eqb (pad2 n) (pad2 m)) (n =? m)%nat = true)
    by (apply Hrow; apply in_seq; lia).
  rewrite Heq, String.eqb_refl in Hcell. now apply Nat.eqb_eq.
Qed.

Lemma log_file_path (p : path) (stamp : string) :
  contains_char "/" stamp = false ->
  joinpath p ("metabolomics_imputation_" +:+ stamp +:+ ".log") =
  p ++ ["metabolomics_imputation_" +:+ stamp +:+ ".log"].
Proof.
  intros Hstamp.
  set (name := "metabolomics_imputation_" +:+ stamp +:+ ".log").
  assert (Hname : name = String "m" ("etabolomics_imputation_"
                                     +:+ stamp +:+ ".log")) by reflexivity.
  assert (Hslash : contains_char "/" name = false).
  { unfold name. now rewrite !contains_char_append, Hstamp. }
  unfold joinpath, Path. rewrite (split_on_absent "/" name Hslash).
  rewrite Hname. reflexivity.
Qed.

(** X20.  The log file of [setup_logging] is named after the second at
    which the call reads the clock: for two valid times, the log files in
    one log directory are the same file only if the times agree in year,
    month, day, hour, minute and second.  Runs that start in different
    seconds therefore log to different files. *)
Theorem log_file_names_differ (logs : string) (t1 t2 : datetime) :
  valid_datetime t1 -> valid_datetime t2 ->
  joinpath (Path logs)
    ("metabolomics_imputation_" +:+ strftime_compact t1 +:+ ".log") =
  joinpath (Path logs)
    ("metabolomics_imputation_" +:+ strftime_compact t2 +:+ ".log") ->
  year t1 = year t2 /\ month t1 = month t2 /\ day t1 = day t2 /\
  hour t1 = hour t2 /\ minute t1 = minute t2 /\ second t1 = second t2.
Proof.
  intros (_ & Hm1 & Hd1 & HH1 & HM1 & HS1) (_ & Hm2 & Hd2 & HH2 & HM2 & HS2).
  rewrite !log_file_path by apply strftime_compact_without_slash.
  intros Heq. apply app_inv_head in Heq. inversion Heq as [Hname].
  apply append_inv_head in Hname.
  apply append_inv_same_length in Hname; [|reflexivity].
  destruct Hname as [Hstamp _]. unfold strftime_compact in Hstamp.
  apply append_inv_same_length in Hstamp.
  - destruct Hstamp as [Hyear Hrest].
    apply str_nat_injective in Hyear.
    apply append_inv_same_length in Hrest.
    + destruct Hrest as [Hmonth Hrest].
      apply pad2_injective in Hmonth; [|lia..].
      apply append_inv_same_length in Hrest.
      * destruct Hrest as [Hday Hrest].
        apply pad2_injective in Hday; [|lia..].
        apply (append_inv_head "_") in Hrest.
        apply append_inv_same_length in Hrest.
        -- destruct Hrest as [Hhour Hrest].
           apply pad2_injective in Hhour; [|lia..].
           apply append_inv_same_length in Hrest.
           ++ destruct Hrest as [Hminute Hsecond].
              apply pad2_injective in Hminute; [|lia..].
              apply pad2_injective in Hsecond; [|lia..].
              repeat split; assumption.
           ++ rewrite !pad2_length by lia. reflexivity.
        -- rewrite !string_length_append, !pad2_length by lia. reflexivity.
      * rewrite !string_length_append, !pad2_length by lia. reflexivity.
    + rewrite !string_length_append, !pad2_length by lia. reflexivity.
  - rewrite !string_length_append, !pad2_length by lia. reflexivity.
Qed.

Lemma log_file_names_differ_witness :
  let t1 := clock example_world in
  let t2 := {| year := 2024; month := 3; day := 9;
               hour := 7; minute := 5; second := 0; microsecond := 250 |} in
  year t1 = year t2 /\ month t1 = month t2 /\ day t1 = day t2 /\
  hour t1 = hour t2 /\ minute t1 = minute t2 /\ second t1 = second t2.
Proof.
  intros t1 t2.
  apply (log_file_names_differ "/var/log/run" t1 t2).
  - unfold valid_datetime. simpl. lia.
  - unfold valid_datetime. simpl. lia.
  - reflexivity.
Defined.

(** ** Calls in succession *)




(** ** A file system on which directory creation cannot fail *)









(** ** export_session_info: all or nothing *)


